(** * A shallow embedding of the client-side data layer of the
    e-Commerce-Recommender dashboard (frontend pages, [lib/api.ts]).

    JavaScript values are modelled by [jsval]; numbers are integers
    (the claims studied here never depend on fractional values).  A JS
    object is a list of property writes: reading a property returns the
    last write, and an object spread [{...a, ...b}] is the concatenation
    [a ++ b].  React [setState] updates are applied in order. *)

From Stdlib Require Import String Ascii List ZArith Bool Lia.
From Stdlib Require Import DecimalString Sorted Permutation.
Import ListNotations.
Open Scope string_scope.
Open Scope list_scope.
Set Warnings "-register-all".

(** ** JavaScript values *)

Inductive jsval :=
| JUndef
| JNull
| JBool (b : bool)
| JNum (z : Z)
| JNaN
| JStr (s : string)
| JArr (l : list jsval)
| JObj (o : list (string * jsval)).

Definition obj := list (string * jsval).

(** Property read: the last write of [k] wins; absent is [undefined]. *)
Fixpoint lookup_last (k : string) (o : obj) : option jsval :=
  match o with
  | [] => None
  | (k', v) :: o' =>
      match lookup_last k o' with
      | Some w => Some w
      | None => if String.eqb k k' then Some v else None
      end
  end.

Definition get (o : obj) (k : string) : jsval :=
  match lookup_last k o with Some v => v | None => JUndef end.

Definition has_key (k : string) (o : obj) : bool :=
  match lookup_last k o with Some _ => true | None => false end.

(** [v?.k] (and [v.k] on a non-nullish value): only objects carry the
    properties read by this code. *)
Definition js_prop (v : jsval) (k : string) : jsval :=
  match v with JObj o => get o k | _ => JUndef end.

(** [v?.[n]]: index into an array or a string. *)
Definition js_index (v : jsval) (n : nat) : jsval :=
  match v with
  | JArr l => match nth_error l n with Some x => x | None => JUndef end
  | JStr s => match String.get n s with
              | Some c => JStr (String c EmptyString)
              | None => JUndef end
  | JObj o => get o (NilEmpty.string_of_uint (Nat.to_uint n))
  | _ => JUndef
  end.

Definition truthy (v : jsval) : bool :=
  match v with
  | JUndef | JNull | JNaN => false
  | JBool b => b
  | JNum z => negb (Z.eqb z 0)
  | JStr s => negb (String.eqb s EmptyString)
  | JArr _ | JObj _ => true
  end.

(** [a || b] *)
Definition js_or (a b : jsval) : jsval := if truthy a then a else b.

Definition string_of_Z (z : Z) : string := NilEmpty.string_of_int (Z.to_int z).

(** [String(v)] *)
Fixpoint js_String (v : jsval) : string :=
  match v with
  | JUndef => "undefined"
  | JNull => "null"
  | JBool b => if b then "true" else "false"
  | JNum z => string_of_Z z
  | JNaN => "NaN"
  | JStr s => s
  | JArr l =>
      String.concat ","
        ((fix elems (l : list jsval) : list string :=
            match l with
            | [] => []
            | x :: r =>
                match x with
                | JUndef | JNull => EmptyString
                | _ => js_String x
                end :: elems r
            end) l)
  | JObj _ => "[object Object]"
  end.

(** The white space removed by [String.prototype.trim]. *)
Definition is_space (c : ascii) : bool :=
  match nat_of_ascii c with
  | 9 | 10 | 11 | 12 | 13 | 32 => true
  | _ => false
  end%nat.

Fixpoint trim_start (s : string) : string :=
  match s with
  | EmptyString => EmptyString
  | String c r => if is_space c then trim_start r else s
  end.

Fixpoint trim_end (s : string) : string :=
  match s with
  | EmptyString => EmptyString
  | String c r =>
      let r' := trim_end r in
      if is_space c && String.eqb r' EmptyString then EmptyString else String c r'
  end.

(** [s.trim()] *)
Definition trim (s : string) : string := trim_end (trim_start s).

(** [Number(v)], on the integer model: white space around a string is
    ignored, a blank string gives 0 and decimal integer literals are
    parsed; other strings (fractions, exponents, hexadecimal) give NaN
    here, although JavaScript reads some of them as numbers the integer
    model cannot hold. *)
Definition js_Number (v : jsval) : jsval :=
  match v with
  | JNum z => JNum z
  | JBool b => JNum (if b then 1 else 0)%Z
  | JNull => JNum 0
  | JStr s => match trim s with
              | EmptyString => JNum 0
              | t => match NilEmpty.int_of_string t with
                     | Some d => JNum (Z.of_int d)
                     | None => JNaN end
              end
  | _ => JNaN
  end.

Fixpoint list_set {A} (l : list A) (i : nat) (x : A) : list A :=
  match l, i with
  | [], _ => []
  | _ :: r, O => x :: r
  | y :: r, S i' => y :: list_set r i' x
  end.

(** [prev.filter((_, idx) => idx !== rowIndex)] *)
Fixpoint remove_at {A} (l : list A) (i : nat) : list A :=
  match l, i with
  | [], _ => []
  | _ :: r, O => r
  | y :: r, S i' => y :: remove_at r i'
  end.

(** ** Remote API ([lib/api.ts])

    Each CRUD wrapper issues one request; its outcome is either the
    parsed JSON body or a thrown [Error] with its message. *)

Inductive api_result :=
| ROk (v : jsval)
| RErr (msg : string).

Inductive request :=
| RUpdateBehavior (id : string) (body : obj)
| RDeleteBehavior (id : string)
| RAddBehavior (body : obj)
| RUpdateProduct (id : string) (body : obj)
| RDeleteProduct (id : string)
| RAddProduct (body : obj).

(** A [sonner] toast: kind, title, description. *)
Inductive toast :=
| ToastSuccess (title : string)
| ToastError (title : string) (description : string).

(** Result of one mutation handler: the page's entity list after the
    handler's [setState] calls, the requests sent, the toasts raised and
    the error re-thrown to the caller, if any. *)
Record mres := {
  m_rows : list obj;
  m_sent : list request;
  m_toasts : list toast;
  m_thrown : option string
}.

Definition type_error_undefined_item : string :=
  "Cannot read properties of undefined".

(** ** Mutation coordinator, behaviour page ([BehaviourPage]) *)
Module Behaviour.

Definition behaviorId (item : obj) : jsval :=
  js_or (get item "_id") (js_or (get item "behavior_id") (get item "user_id")).

Definition behaviorData_of_update (item data : obj) : obj :=
  [("user_id", JStr (js_String (js_or (get data "user_id") (get item "user_id"))));
   ("product_id", JStr (js_String (get data "product_id")));
   ("action", JStr (js_String (get data "action")));
   ("timestamp", JStr (js_String (get data "timestamp")))].

Definition handleUpdate (behaviour : list obj) (rowIndex : nat) (data : obj)
  (resp : api_result) : mres :=
  match nth_error behaviour rowIndex with
  | None => {| m_rows := behaviour; m_sent := []; m_toasts := [];
               m_thrown := Some type_error_undefined_item |}
  | Some item =>
      if negb (truthy (get item "_id")) then
        {| m_rows := behaviour; m_sent := [];
           m_toasts := [ToastError "Cannot update: Missing _id field"
                          "Please refresh the page to load the latest data with IDs"];
           m_thrown := None |}
      else
        let req := RUpdateBehavior (js_String (behaviorId item))
                     (behaviorData_of_update item data) in
        let updated := list_set behaviour rowIndex (item ++ data) in
        match resp with
        | ROk _ =>
            {| m_rows := updated; m_sent := [req];
               m_toasts := [ToastSuccess "Behavior updated successfully"];
               m_thrown := None |}
        | RErr msg =>
            {| m_rows := updated; m_sent := [req];
               m_toasts := [ToastError "Failed to update behavior" msg];
               m_thrown := None |}
        end
  end.

Definition handleDelete (behaviour : list obj) (rowIndex : nat)
  (resp : api_result) : mres :=
  match nth_error behaviour rowIndex with
  | None => {| m_rows := behaviour; m_sent := []; m_toasts := [];
               m_thrown := Some type_error_undefined_item |}
  | Some item =>
      if negb (truthy (get item "_id")) then
        {| m_rows := behaviour; m_sent := [];
           m_toasts := [ToastError "Cannot delete: Missing _id field"
                          "Please refresh the page to load the latest data with IDs"];
           m_thrown := None |}
      else
        let req := RDeleteBehavior (js_String (behaviorId item)) in
        match resp with
        | ROk _ =>
            {| m_rows := remove_at behaviour rowIndex; m_sent := [req];
               m_toasts := [ToastSuccess "Behavior deleted successfully"];
               m_thrown := None |}
        | RErr msg =>
            {| m_rows := remove_at behaviour rowIndex; m_sent := [req];
               m_toasts := [ToastError "Failed to delete behavior" msg];
               m_thrown := None |}
        end
  end.

Definition handleAddFromDialog (behaviour : list obj)
  (user_id product_id action timestamp : string) (resp : api_result) : mres :=
  let behaviorData : obj :=
    [("user_id", JStr user_id); ("product_id", JStr product_id);
     ("action", JStr action); ("timestamp", JStr timestamp)] in
  let req := RAddBehavior behaviorData in
  match resp with
  | ROk result =>
      let newBehavior := behaviorData ++
        [("behavior_id", js_prop result "behavior_id"); ("_id", js_prop result "_id")] in
      {| m_rows := behaviour ++ [newBehavior]; m_sent := [req];
         m_toasts := [ToastSuccess "Behavior added successfully"];
         m_thrown := None |}
  | RErr msg =>
      {| m_rows := behaviour; m_sent := [req];
         m_toasts := [ToastError "Failed to add behavior" msg];
         m_thrown := Some msg |}
  end.

End Behaviour.

(** ** Mutation coordinator, catalog page ([CatalogPage]) *)
Module Catalog.

Definition productData_of_update (productId : jsval) (data : obj) : obj :=
  [("product_id", productId);
   ("name", JStr (js_String (get data "name")));
   ("brand", JStr (js_String (get data "brand")));
   ("category", JStr (js_String (get data "category")));
   ("price", js_Number (get data "price"));
   ("rating", js_Number (get data "rating"));
   ("features", JStr (js_String (get data "features")))].

Definition handleUpdate (catalog : list obj) (rowIndex : nat) (data : obj)
  (resp : api_result) : mres :=
  match nth_error catalog rowIndex with
  | None => {| m_rows := catalog; m_sent := []; m_toasts := [];
               m_thrown := Some type_error_undefined_item |}
  | Some item =>
      let productId := get item "product_id" in
      let req := RUpdateProduct (js_String productId)
                   (productData_of_update productId data) in
      match resp with
      | ROk _ =>
          {| m_rows := list_set catalog rowIndex (data ++ [("product_id", productId)]);
             m_sent := [req];
             m_toasts := [ToastSuccess "Product updated successfully"];
             m_thrown := None |}
      | RErr msg =>
          {| m_rows := list_set catalog rowIndex (item ++ data);
             m_sent := [req];
             m_toasts := [ToastError "Failed to update product" msg];
             m_thrown := None |}
      end
  end.

Definition handleDelete (catalog : list obj) (rowIndex : nat)
  (resp : api_result) : mres :=
  match nth_error catalog rowIndex with
  | None => {| m_rows := catalog; m_sent := []; m_toasts := [];
               m_thrown := Some type_error_undefined_item |}
  | Some item =>
      let req := RDeleteProduct (js_String (get item "product_id")) in
      match resp with
      | ROk _ =>
          {| m_rows := remove_at catalog rowIndex; m_sent := [req];
             m_toasts := [ToastSuccess "Product deleted successfully"];
             m_thrown := None |}
      | RErr msg =>
          {| m_rows := remove_at catalog rowIndex; m_sent := [req];
             m_toasts := [ToastError "Failed to delete product" msg];
             m_thrown := None |}
      end
  end.

(** The dialog's [data] carries every [Product] field. *)
Definition handleAddFromDialog (catalog : list obj) (productData : obj)
  (resp : api_result) : mres :=
  let req := RAddProduct productData in
  match resp with
  | ROk result =>
      let newProduct := productData ++
        [("product_id", js_or (js_prop result "product_id") (get productData "product_id"))] in
      {| m_rows := catalog ++ [newProduct]; m_sent := [req];
         m_toasts := [ToastSuccess "Product added successfully"];
         m_thrown := None |}
  | RErr msg =>
      {| m_rows := catalog; m_sent := [req];
         m_toasts := [ToastError "Failed to add product" msg];
         m_thrown := Some msg |}
  end.

End Catalog.

(** ** Response normalisation (list fetches) *)
Module Normalize.

Definition as_array (v : jsval) : option (list jsval) :=
  match v with JArr l => Some l | _ => None end.

(** [fetchBehaviors]: the list that [setBehaviour] receives. *)
Definition behaviorsList (data : jsval) : list jsval :=
  match as_array data with
  | Some l => l
  | None =>
      match as_array (js_prop data "behaviors") with
      | Some l => l
      | None =>
          match as_array (js_prop data "data") with
          | Some l => l
          | None => []
          end
      end
  end.

Definition fetchBehaviors (behaviour : list jsval) (data : jsval) : list jsval :=
  behaviorsList data.

(** [fetchProducts]: [setCatalog] is called only when a rule matches. *)
Definition fetchProducts (catalog : list jsval) (data : jsval) : list jsval :=
  match as_array data with
  | Some l => l
  | None =>
      match as_array (js_prop data "products") with
      | Some l => l
      | None =>
          match as_array (js_prop data "data") with
          | Some l => l
          | None => catalog
          end
      end
  end.

(** [fetchStoredRecommendations] (dashboard recommendations page): the
    recommendations list and the explanation after the fetch. *)
Definition fetchStoredRecommendations (recs : list jsval) (explanation : jsval)
  (data : jsval) : list jsval * jsval :=
  match as_array (js_prop data "recommendations") with
  | Some l => (l, if truthy (js_prop data "explanation")
                  then js_prop data "explanation" else explanation)
  | None =>
      match as_array data with
      | Some l => (l, explanation)
      | None => (recs, explanation)
      end
  end.

End Normalize.

(** ** Error text of a failed request ([apiFetch] in [lib/api.ts]) *)
Module Api.

(** Stands for the message of the [SyntaxError] raised by
    [response.json()] on a body that is not JSON; its exact text depends
    on the engine and the body, and no property below depends on it. *)
Definition json_parse_error : string := "Unexpected token in JSON".

Definition null_detail_error : string :=
  "Cannot read properties of null (reading 'detail')".

Definition response_ok (status : Z) : bool := ((200 <=? status) && (status <=? 299))%Z.

(** [apiFetch] once [fetch] has produced a response; [body] is the
    result of [response.json()] ([None] when the body does not parse). *)
Definition apiFetch_response (status : Z) (statusText : string)
  (body : option jsval) : api_result :=
  if response_ok status then
    match body with Some v => ROk v | None => RErr json_parse_error end
  else
    let errorData := match body with Some v => v | None => JObj [] end in
    match errorData with
    | JNull => RErr null_detail_error
    | _ =>
        let detail := js_prop errorData "detail" in
        RErr (js_String
          (js_or (js_prop (js_index detail 0) "msg")
          (js_or detail
          (js_or (js_prop errorData "message")
                 (JStr ("API Error: " ++ string_of_Z status ++ " " ++ statusText))))))
    end.

End Api.

(** ** File stager ([handleFilesSelected] and the large-file dialog) *)
Module Stager.

Record file := { ftype : string; fname : string; fsize : Z }.

Record FileWithMeta := { mfile : file; mid : string; mname : string; msize : Z }.

Definition MAX_FILE_SIZE : Z := (5 * 1024 * 1024)%Z.

Definition lower_ascii (c : ascii) : ascii :=
  let n := nat_of_ascii c in
  if (65 <=? n)%nat && (n <=? 90)%nat then ascii_of_nat (n + 32) else c.

(** [toLowerCase] on ASCII names. *)
Fixpoint toLowerCase (s : string) : string :=
  match s with
  | EmptyString => EmptyString
  | String c r => String (lower_ascii c) (toLowerCase r)
  end.

Definition endsWith (s suffix : string) : bool :=
  let n := String.length s in
  let m := String.length suffix in
  (m <=? n)%nat && String.eqb (substring (n - m) m s) suffix.

Definition isCSV (f : file) : bool :=
  String.eqb (ftype f) "text/csv" || endsWith (toLowerCase (fname f)) ".csv".

(** The page's [useState] fields of the stager.  [nonce] stands for the
    [Date.now()]/[Math.random()] disambiguator of the generated ids. *)
Record stager := {
  files : list FileWithMeta;
  error : string;
  pendingLargeFiles : list file;
  showLargeFileWarning : bool;
  nonce : nat
}.

Definition mkMeta (f : file) (n : nat) : FileWithMeta :=
  {| mfile := f;
     mid := fname f ++ "-" ++ NilEmpty.string_of_uint (Nat.to_uint n);
     mname := fname f; msize := fsize f |}.

(** The loop of [handleFilesSelected]: valid files, large files, whether
    an invalid type was seen, next nonce. *)
Fixpoint scan (sel : list file) (n : nat)
  : list FileWithMeta * list file * bool * nat :=
  match sel with
  | [] => ([], [], false, n)
  | f :: r =>
      if negb (isCSV f) then
        let '(v, l, _, n') := scan r n in (v, l, true, n')
      else if (MAX_FILE_SIZE <? fsize f)%Z then
        let '(v, l, b, n') := scan r n in (v, f :: l, b, n')
      else
        let '(v, l, b, n') := scan r (S n) in (mkMeta f n :: v, l, b, n')
  end.

Definition handleFilesSelected (s : stager) (sel : list file) : stager :=
  let '(validFiles, largeFiles, hasInvalidType, n') := scan sel (nonce s) in
  {| error := if hasInvalidType then "Only CSV files are allowed" else EmptyString;
     pendingLargeFiles := match largeFiles with [] => pendingLargeFiles s | _ => largeFiles end;
     showLargeFileWarning := match largeFiles with [] => showLargeFileWarning s | _ => true end;
     files := files s ++ validFiles;
     nonce := n' |}.

Fixpoint metas (l : list file) (n : nat) : list FileWithMeta :=
  match l with
  | [] => []
  | f :: r => mkMeta f n :: metas r (S n)
  end.

Definition handleConfirmLargeFiles (s : stager) : stager :=
  {| files := files s ++ metas (pendingLargeFiles s) (nonce s);
     error := error s;
     pendingLargeFiles := [];
     showLargeFileWarning := false;
     nonce := nonce s + List.length (pendingLargeFiles s) |}.

Definition handleCancelLargeFiles (s : stager) : stager :=
  {| files := files s; error := error s; pendingLargeFiles := [];
     showLargeFileWarning := false; nonce := nonce s |}.

Definition handleRemoveFile (s : stager) (id : string) : stager :=
  {| files := filter (fun f => negb (String.eqb (mid f) id)) (files s);
     error := error s; pendingLargeFiles := pendingLargeFiles s;
     showLargeFileWarning := showLargeFileWarning s; nonce := nonce s |}.

(** The files [handleFilesSelected] stages directly, and those it holds
    back for confirmation. *)
Definition smallCSV (f : file) : bool := isCSV f && (fsize f <=? MAX_FILE_SIZE)%Z.
Definition largeCSV (f : file) : bool := isCSV f && (MAX_FILE_SIZE <? fsize f)%Z.

End Stager.

(** ** Transport engine: the upload session of the recommendations page
    ([app/recommendations/page.tsx], [handleUpload] and
    [handleCancelUpload]).

    The page is a state machine over user and browser events.  The
    browser's [XMLHttpRequest] is modelled by [xhr]: it delivers progress
    events with a non-decreasing byte counter bounded by the body length,
    and at most one of [load], [error] or [abort] (after which it is
    done).  The ghost component [log] records, per session handle, the
    events the page delivers: the session start, each progress update it
    stores and the terminal outcome. *)
Module Upload.

Import Stager.

Record progress := mkProgress { overall : Z; perFile : list (string * Z) }.

Definition reset_progress : progress := mkProgress 0 [].

(** [files.forEach((f) => { perFileProgress[f.id] = p })] *)
Definition uniform (fs : list FileWithMeta) (p : Z) : list (string * Z) :=
  map (fun f => (mid f, p)) fs.

Definition progress_eq_dec (p q : progress) : {p = q} + {p <> q}.
Proof. repeat decide equality; apply string_dec. Defined.

Definition progress_eqb (p q : progress) : bool :=
  if progress_eq_dec p q then true else false.

(** [Math.round((loaded / total) * 100)] *)
Definition pct (loaded total : Z) : Z := ((200 * loaded + total) / (2 * total))%Z.

Inductive outcome :=
| OSuccess (envelope : jsval * jsval)
| OBadResponse (message : string)
| OServerError (status : Z) (message : string)
| ONetworkError
| OAborted.

Inductive ev :=
| EvStart (mock : bool) (fs : list FileWithMeta)
| EvProgress (p : progress)
| EvTerminal (o : outcome) (p : progress).

Record xhr := mkXhr { x_handle : nat; x_active : bool; x_loaded : Z; x_total : Z }.

Record page := mkPage {
  stg : stager;
  isUploading : bool;
  uploadProgress : progress;
  recommendations : jsval;
  explanation : jsval;
  mockMode : bool;
  abortController : option nat;
  xhr_req : option xhr;
  mock_loop : option Z;
  session_files : list FileWithMeta;
  session : nat;
  log : list (nat * ev)
}.

Definition init_page : page :=
  {| stg := {| files := []; error := EmptyString; pendingLargeFiles := [];
               showLargeFileWarning := false; nonce := 0 |};
     isUploading := false; uploadProgress := reset_progress;
     recommendations := JArr []; explanation := JStr EmptyString;
     mockMode := false; abortController := None; xhr_req := None;
     mock_loop := None; session_files := []; session := 0; log := [] |}.

(** React state setters. *)
Definition setStg v s := mkPage v (isUploading s) (uploadProgress s) (recommendations s)
  (explanation s) (mockMode s) (abortController s) (xhr_req s) (mock_loop s)
  (session_files s) (session s) (log s).
Definition setIsUploading v s := mkPage (stg s) v (uploadProgress s) (recommendations s)
  (explanation s) (mockMode s) (abortController s) (xhr_req s) (mock_loop s)
  (session_files s) (session s) (log s).
Definition setUploadProgress v s := mkPage (stg s) (isUploading s) v (recommendations s)
  (explanation s) (mockMode s) (abortController s) (xhr_req s) (mock_loop s)
  (session_files s) (session s) (log s).
Definition setRecommendations v s := mkPage (stg s) (isUploading s) (uploadProgress s) v
  (explanation s) (mockMode s) (abortController s) (xhr_req s) (mock_loop s)
  (session_files s) (session s) (log s).
Definition setExplanation v s := mkPage (stg s) (isUploading s) (uploadProgress s)
  (recommendations s) v (mockMode s) (abortController s) (xhr_req s) (mock_loop s)
  (session_files s) (session s) (log s).
Definition setMockMode v s := mkPage (stg s) (isUploading s) (uploadProgress s)
  (recommendations s) (explanation s) v (abortController s) (xhr_req s) (mock_loop s)
  (session_files s) (session s) (log s).
Definition setAbortController v s := mkPage (stg s) (isUploading s) (uploadProgress s)
  (recommendations s) (explanation s) (mockMode s) v (xhr_req s) (mock_loop s)
  (session_files s) (session s) (log s).
Definition setXhr v s := mkPage (stg s) (isUploading s) (uploadProgress s)
  (recommendations s) (explanation s) (mockMode s) (abortController s) v (mock_loop s)
  (session_files s) (session s) (log s).
Definition setMockLoop v s := mkPage (stg s) (isUploading s) (uploadProgress s)
  (recommendations s) (explanation s) (mockMode s) (abortController s) (xhr_req s) v
  (session_files s) (session s) (log s).
Definition startSession h fs s := mkPage (stg s) (isUploading s) (uploadProgress s)
  (recommendations s) (explanation s) (mockMode s) (abortController s) (xhr_req s)
  (mock_loop s) fs h (log s).
Definition emit h e s := mkPage (stg s) (isUploading s) (uploadProgress s)
  (recommendations s) (explanation s) (mockMode s) (abortController s) (xhr_req s)
  (mock_loop s) (session_files s) (session s) (log s ++ [(h, e)]).

Definition setError (msg : string) (s : page) : page :=
  setStg {| files := files (stg s); error := msg;
            pendingLargeFiles := pendingLargeFiles (stg s);
            showLargeFileWarning := showLargeFileWarning (stg s);
            nonce := nonce (stg s) |} s.

Definition canUpload (s : page) : bool :=
  negb (Nat.eqb (List.length (files (stg s))) 0) && negb (isUploading s).

(** [handleUpload], up to the point where it suspends: the session
    start of both modes.  [bodyLength] is the byte length of the
    multipart body the browser will send. *)
Definition handleUpload (bodyLength : Z) (s : page) : page :=
  let fs := files (stg s) in
  let s1 := setExplanation (JStr EmptyString) (setRecommendations (JArr [])
              (setError EmptyString s)) in
  let h := S (session s) in
  if mockMode s then
    emit h (EvStart true fs)
      (setMockLoop (Some 0%Z) (setUploadProgress reset_progress
        (setIsUploading true (startSession h fs s1))))
  else
    emit h (EvStart false fs)
      (setUploadProgress reset_progress (setIsUploading true
        (setAbortController (Some h)
          (setXhr (Some (mkXhr h true 0 bodyLength)) (startSession h fs s1))))).

Definition tick (fs : list FileWithMeta) (i : Z) : progress := mkProgress i (uniform fs i).

(** One iteration of the mock-mode loop
    [for (let i = 0; i <= 100; i += 10) { await delay; setUploadProgress(...) }],
    followed, after the last one, by the canned result. *)
Definition mockTick (canned : jsval * jsval) (s : page) : page :=
  match mock_loop s with
  | None => s
  | Some i =>
      let prog := tick (session_files s) i in
      let s1 := emit (session s) (EvProgress prog) (setUploadProgress prog s) in
      if (i + 10 <=? 100)%Z then setMockLoop (Some (i + 10)%Z) s1
      else
        let env := (fst canned, js_or (snd canned) (JStr EmptyString)) in
        emit (session s) (EvTerminal (OSuccess env) prog)
          (setMockLoop None (setIsUploading false
            (setExplanation (snd env) (setRecommendations (fst env) s1))))
  end.

Definition deactivate (x : xhr) : xhr := mkXhr (x_handle x) false (x_loaded x) (x_total x).

(** [xhr.upload.onprogress] (the browser first advances its counter). *)
Definition onprogress (x : xhr) (loaded : Z) (lengthComputable : bool) (s : page) : page :=
  let s1 := setXhr (Some (mkXhr (x_handle x) (x_active x) loaded (x_total x))) s in
  if lengthComputable then
    let percent := pct loaded (x_total x) in
    let prog := mkProgress percent (uniform (session_files s) percent) in
    emit (x_handle x) (EvProgress prog) (setUploadProgress prog s1)
  else s1.

(** [data.recommendations.length > 0] *)
Definition js_length_pos (v : jsval) : bool :=
  match v with
  | JArr l => negb (Nat.eqb (List.length l) 0)
  | JStr str => negb (Nat.eqb (String.length str) 0)
  | JObj o => match get o "length" with JNum n => (0 <? n)%Z | _ => false end
  | _ => false
  end.

(** The body of [xhr.onload]: the outcome and the [setError] /
    [setRecommendations] / [setExplanation] calls.  [parsed] is
    [JSON.parse(xhr.responseText)] ([None] when it throws). *)
Definition onload_result (status : Z) (responseText : string) (parsed : option jsval)
  : outcome * (page -> page) :=
  if (status =? 200)%Z then
    match parsed with
    | None | Some JNull =>
        (OBadResponse "Unexpected server response.", setError "Unexpected server response.")
    | Some data =>
        let r := js_prop data "recommendations" in
        if truthy r && js_length_pos r then
          let env := (r, js_or (js_prop data "explanation") (JStr EmptyString)) in
          (OSuccess env, fun s => setExplanation (snd env) (setRecommendations (fst env) s))
        else
          (OBadResponse "No recommendations found for uploaded data.",
           setError "No recommendations found for uploaded data.")
    end
  else
    let msg :=
      match parsed with
      | None | Some JNull =>
          js_String (js_or (JStr responseText) (JStr "Server error occurred."))
      | Some errorData =>
          js_String (js_or (js_prop errorData "message")
                    (js_or (js_prop errorData "error") (JStr "Server error occurred.")))
      end in
    (OServerError status msg, setError msg).

Definition onload (x : xhr) (status : Z) (responseText : string) (parsed : option jsval)
  (s : page) : page :=
  let s1 := setAbortController None (setIsUploading false (setXhr (Some (deactivate x)) s)) in
  let '(o, k) := onload_result status responseText parsed in
  emit (x_handle x) (EvTerminal o (uploadProgress s)) (k s1).

Definition onerror (x : xhr) (s : page) : page :=
  let s1 := setError "Network error. Please check your connection."
              (setAbortController None (setIsUploading false (setXhr (Some (deactivate x)) s))) in
  emit (x_handle x) (EvTerminal ONetworkError (uploadProgress s)) s1.

Definition onabort (x : xhr) (s : page) : page :=
  emit (x_handle x) (EvTerminal OAborted reset_progress)
    (setUploadProgress reset_progress (setAbortController None
      (setIsUploading false (setXhr (Some (deactivate x)) s)))).

(** [handleCancelUpload]: [abortController.abort()] runs the signal's
    listener, [xhr.abort()], which fires [onabort] only on a request
    still in progress. *)
Definition handleCancelUpload (s : page) : page :=
  match abortController s with
  | None => s
  | Some h =>
      match xhr_req s with
      | Some x => if x_active x && Nat.eqb (x_handle x) h then onabort x s else s
      | None => s
      end
  end.

Inductive event :=
| UStage (sel : list file)
| UConfirmLarge
| UCancelLarge
| URemove (id : string)
| UToggleMock (b : bool)
| UUpload (bodyLength : Z)
| UCancel
| XhrProgress (loaded : Z) (lengthComputable : bool)
| XhrLoad (status : Z) (responseText : string) (parsed : option jsval)
| XhrError
| MockTick.

(** Browser events reach the page only while the request is in progress,
    with the byte counter non-decreasing and bounded by the body length.
    The "Upload & Analyze" button is disabled unless [canUpload]. *)
Definition step (canned : jsval * jsval) (s : page) (e : event) : page :=
  match e with
  | UStage sel => setStg (handleFilesSelected (stg s) sel) s
  | UConfirmLarge => setStg (handleConfirmLargeFiles (stg s)) s
  | UCancelLarge => setStg (handleCancelLargeFiles (stg s)) s
  | URemove id => setStg (handleRemoveFile (stg s) id) s
  | UToggleMock b => setMockMode b s
  | UUpload bodyLength => if canUpload s then handleUpload bodyLength s else s
  | UCancel => handleCancelUpload s
  | XhrProgress loaded comp =>
      match xhr_req s with
      | Some x =>
          if x_active x && (x_loaded x <=? loaded)%Z && (loaded <=? x_total x)%Z
             && (0 <? x_total x)%Z
          then onprogress x loaded comp s else s
      | None => s
      end
  | XhrLoad status text parsed =>
      match xhr_req s with
      | Some x => if x_active x then onload x status text parsed s else s
      | None => s
      end
  | XhrError =>
      match xhr_req s with
      | Some x => if x_active x then onerror x s else s
      | None => s
      end
  | MockTick => mockTick canned s
  end.

Definition run (canned : jsval * jsval) (es : list event) : page :=
  fold_left (step canned) es init_page.

Inductive reachable (canned : jsval * jsval) : page -> Prop :=
| reach_init : reachable canned init_page
| reach_step s e : reachable canned s -> reachable canned (step canned s e).

(** The events of session [h], in delivery order. *)
Definition entries (h : nat) (l : list (nat * ev)) : list ev :=
  map snd (filter (fun p => Nat.eqb h (fst p)) l).

(** Per-session protocol: a start, progress updates whose overall value
    never decreases and is copied to every staged file, then at most one
    terminal outcome, which leaves the progress at its last value, except
    an abort (real mode only), which resets it; a mock-mode session only
    ends in [OSuccess] at 100. *)
Inductive sstate :=
| SFresh
| SRunning (mock : bool) (fs : list FileWithMeta) (last : progress)
| SFinished.

Definition sess_step (st : sstate) (e : ev) : option sstate :=
  match st, e with
  | SFresh, EvStart m fs => Some (SRunning m fs reset_progress)
  | SRunning m fs last, EvProgress p =>
      if (overall last <=? overall p)%Z
         && progress_eqb p (mkProgress (overall p) (uniform fs (overall p)))
      then Some (SRunning m fs p) else None
  | SRunning m fs last, EvTerminal o p =>
      match o with
      | OAborted => if negb m && progress_eqb p reset_progress then Some SFinished else None
      | OSuccess _ =>
          if progress_eqb p last && (negb m || (overall p =? 100)%Z)
          then Some SFinished else None
      | _ => if negb m && progress_eqb p last then Some SFinished else None
      end
  | _, _ => None
  end.

Fixpoint sess_run_from (st : sstate) (l : list ev) : option sstate :=
  match l with
  | [] => Some st
  | e :: r => match sess_step st e with
              | Some st' => sess_run_from st' r
              | None => None
              end
  end.

Definition sess_run (l : list ev) : option sstate := sess_run_from SFresh l.

(** The complete event sequence of a mock-mode session. *)
Definition mock_ticks (fs : list FileWithMeta) (n : nat) : list ev :=
  map (fun k => EvProgress (tick fs (10 * Z.of_nat k))) (seq 0 n).

Definition mock_trace (canned : jsval * jsval) (fs : list FileWithMeta) : list ev :=
  EvStart true fs :: mock_ticks fs 11 ++
  [EvTerminal (OSuccess (fst canned, js_or (snd canned) (JStr EmptyString))) (tick fs 100)].

(** ** The session invariant *)

Definition xhr_active (s : page) : bool :=
  match xhr_req s with Some x => x_active x | None => false end.

Definition is_mock (s : page) : bool :=
  match mock_loop s with Some _ => true | None => false end.

Definition in_flight (s : page) : bool := xhr_active s || is_mock s.

(** The protocol state each session handle must be in. *)
Definition expected (s : page) (h : nat) : sstate :=
  if Nat.eqb h 0 || Nat.ltb (session s) h then SFresh
  else if Nat.ltb h (session s) then SFinished
  else if in_flight s then SRunning (is_mock s) (session_files s) (uploadProgress s)
  else SFinished.

(** The overall percentages of the progress updates of a session. *)
Definition overalls (l : list ev) : list Z :=
  flat_map (fun e => match e with EvProgress p => [overall p] | _ => [] end) l.

(** The progress last delivered in [l], starting from [q]. *)
Definition last_progress_from (q : progress) (l : list ev) : progress :=
  fold_left (fun acc e => match e with EvProgress p => p | _ => acc end) l q.

(** The fields the upload session reads (everything but the stager and
    the mock-mode switch). *)
Definition core (s : page) :=
  (isUploading s, uploadProgress s, abortController s, xhr_req s, mock_loop s,
   session_files s, session s, log s).

Record Inv (canned : jsval * jsval) (s : page) : Prop := {
  inv_xhr : forall x, xhr_req s = Some x -> x_active x = true ->
    x_handle x = session s /\ (1 <= session s)%nat /\ mock_loop s = None /\
    isUploading s = true /\ abortController s = Some (x_handle x) /\
    (0 <= x_loaded x)%Z /\
    ((0 < x_total x)%Z -> (overall (uploadProgress s) <= pct (x_loaded x) (x_total x))%Z);
  inv_ctl : forall h, abortController s = Some h ->
    exists x, xhr_req s = Some x /\ x_active x = true /\ x_handle x = h;
  inv_mock : forall i, mock_loop s = Some i ->
    isUploading s = true /\ xhr_active s = false /\ abortController s = None /\
    (1 <= session s)%nat /\
    (exists n, (n <= 10)%nat /\ i = (10 * Z.of_nat n)%Z) /\
    (overall (uploadProgress s) <= i)%Z;
  inv_uploading : isUploading s = true -> in_flight s = true;
  inv_log : forall h, sess_run (entries h (log s)) = Some (expected s h);
  inv_mock_log : forall h fs rest, entries h (log s) = EvStart true fs :: rest ->
    fs <> [] /\
    ((h = session s /\ session_files s = fs /\
      exists n, mock_loop s = Some (10 * Z.of_nat n)%Z /\ rest = mock_ticks fs n)
     \/ EvStart true fs :: rest = mock_trace canned fs)
}.

End Upload.

(** Two objects that answer every property read alike. *)
Definition obj_equiv (a b : obj) : Prop := forall k, get a k = get b k.

(** A sample staged file for the concrete runs below. *)
Definition sample_csv : Stager.file :=
  {| Stager.ftype := "text/csv"; Stager.fname := "a.csv"; Stager.fsize := 1000%Z |}.

(** ** String built-ins used by the tables (ASCII strings) *)

(** [s.includes(q)] *)
Fixpoint includes (s q : string) : bool :=
  prefix q s || match s with EmptyString => false | String _ r => includes r q end.

(** [s.split(sep)] for a one-character separator: the segment being
    read and the segments after it. *)
Fixpoint split_aux (sep : ascii) (s : string) : string * list string :=
  match s with
  | EmptyString => (EmptyString, [])
  | String c r =>
      let '(seg, segs) := split_aux sep r in
      if Ascii.eqb c sep then (EmptyString, seg :: segs) else (String c seg, segs)
  end.

Definition split_on (sep : ascii) (s : string) : list string :=
  let '(seg, segs) := split_aux sep s in seg :: segs.

Definition digit_val (c : ascii) : option Z :=
  let n := nat_of_ascii c in
  if (48 <=? n)%nat && (n <=? 57)%nat then Some (Z.of_nat (n - 48)) else None.

Fixpoint digits_from (acc : Z) (s : string) : Z :=
  match s with
  | EmptyString => acc
  | String c r =>
      match digit_val c with
      | Some d => digits_from (acc * 10 + d)%Z r
      | None => acc
      end
  end.

(** [Number.parseInt(s, 10)]; [None] is [NaN]. *)
Definition js_parseInt10 (s : string) : option Z :=
  let s := trim_start s in
  let '(sign, s) :=
    match s with
    | String c r =>
        if Ascii.eqb c "-"%char then ((-1)%Z, r)
        else if Ascii.eqb c "+"%char then (1%Z, r) else (1%Z, s)
    | EmptyString => (1%Z, s)
    end in
  match s with
  | String c _ =>
      match digit_val c with
      | Some _ => Some (sign * digits_from 0 s)%Z
      | None => None
      end
  | EmptyString => None
  end.

(** [l.slice(start, stop)] *)
Definition js_slice {A} (l : list A) (start stop : Z) : list A :=
  let len := Z.of_nat (length l) in
  let rel (z : Z) := if (z <? 0)%Z then Z.max (len + z) 0 else Z.min z len in
  let from := rel start in
  let to_ := rel stop in
  firstn (Z.to_nat (to_ - from)) (skipn (Z.to_nat from) l).

(** [l.sort(cmp)]: [Array.prototype.sort] is stable, and for a
    comparator that is a difference of numeric keys every stable sort
    returns the same list as this insertion sort, which puts an element
    before the first one it does not compare after. *)
Fixpoint insert_by {A} (cmp : A -> A -> Z) (x : A) (l : list A) : list A :=
  match l with
  | [] => [x]
  | y :: r => if (cmp x y <=? 0)%Z then x :: l else y :: insert_by cmp x r
  end.

Fixpoint sort_by {A} (cmp : A -> A -> Z) (l : list A) : list A :=
  match l with
  | [] => []
  | x :: r => insert_by cmp x (sort_by cmp r)
  end.

(** ** Page navigation ([components/pagination.tsx]) *)
Module Pagination.

(** [for (let i = start; ...; i++) pages.push(i)], [n] iterations. *)
Fixpoint range_from (start : Z) (n : nat) : list Z :=
  match n with
  | O => []
  | S n' => start :: range_from (start + 1)%Z n'
  end.

(** [startPage] and [endPage]. *)
Definition window (currentPage totalPages : Z) : Z * Z :=
  let startPage := Z.max 1 (currentPage - 2) in
  let endPage := Z.min totalPages (currentPage + 2) in
  let endPage := if (currentPage <=? 3)%Z then Z.min totalPages 5 else endPage in
  let startPage :=
    if (totalPages - 2 <=? currentPage)%Z then Z.max 1 (totalPages - 4) else startPage in
  (startPage, endPage).

(** [pages]: [startPage] to [endPage] inclusive. *)
Definition pages (currentPage totalPages : Z) : list Z :=
  let '(startPage, endPage) := window currentPage totalPages in
  range_from startPage (Z.to_nat (endPage - startPage + 1)).

(** The numbered buttons in display order: page 1 when [startPage > 1],
    the window, and [totalPages] when [endPage < totalPages]. *)
Definition buttons (currentPage totalPages : Z) : list Z :=
  let '(startPage, endPage) := window currentPage totalPages in
  (if (1 <? startPage)%Z then [1%Z] else []) ++ pages currentPage totalPages ++
  (if (endPage <? totalPages)%Z then [totalPages] else []).

Inductive control := Prev | Next | PageButton (p : Z).

(** The argument of [onPageChange] after a click on a control, [None]
    when the control is disabled or not rendered. *)
Definition clickTarget (currentPage totalPages : Z) (c : control) : option Z :=
  match c with
  | Prev => if (currentPage =? 1)%Z then None else Some (currentPage - 1)%Z
  | Next => if (currentPage =? totalPages)%Z then None else Some (currentPage + 1)%Z
  | PageButton p =>
      if existsb (Z.eqb p) (buttons currentPage totalPages) then Some p else None
  end.

End Pagination.

(** ** Results table ([RecommendationsTable], [components/recommendations-table]) *)
Module RecTable.

Record recommendation := {
  product_id : string; name : string; brand : string; category : string;
  price : Z; rating : Z; features : string;
  similarity_score : Z; overall_score : Z
}.

Inductive SortField := FPrice | FRating | FSimilarity | FOverall.

Definition SortField_eqb (f g : SortField) : bool :=
  match f, g with
  | FPrice, FPrice | FRating, FRating | FSimilarity, FSimilarity
  | FOverall, FOverall => true
  | _, _ => false
  end.

(** [a[sortConfig.field]] *)
Definition field_value (f : SortField) (r : recommendation) : Z :=
  match f with
  | FPrice => price r
  | FRating => rating r
  | FSimilarity => similarity_score r
  | FOverall => overall_score r
  end.

Inductive direction := Asc | Desc.

Record SortConfig := { field : option SortField; dir : direction }.

Definition ROWS_PER_PAGE : Z := 10.

Definition filteredData (recommendations : list recommendation)
  (searchQuery topNFilter : string) : list recommendation :=
  let data := recommendations in
  let data :=
    if negb (String.eqb topNFilter "all") then
      let n := js_parseInt10 topNFilter in
      js_slice (sort_by (fun a b => overall_score b - overall_score a)%Z data) 0
        (match n with Some z => z | None => 0%Z end)
    else data in
  if negb (String.eqb (trim searchQuery) EmptyString) then
    let query := Stager.toLowerCase searchQuery in
    filter (fun item => includes (Stager.toLowerCase (name item)) query
                        || includes (Stager.toLowerCase (brand item)) query) data
  else data.

Definition sortedData (sortConfig : SortConfig) (filtered : list recommendation)
  : list recommendation :=
  match field sortConfig with
  | None => filtered
  | Some f =>
      sort_by (fun a b =>
                 match dir sortConfig with
                 | Asc => field_value f a - field_value f b
                 | Desc => field_value f b - field_value f a
                 end)%Z filtered
  end.

(** [Math.ceil(n / ROWS_PER_PAGE)] on a row count [n]. *)
Definition totalPages (n : nat) : Z :=
  ((Z.of_nat n + ROWS_PER_PAGE - 1) / ROWS_PER_PAGE)%Z.

Definition paginatedData {A} (sorted : list A) (currentPage : Z) : list A :=
  let start := ((currentPage - 1) * ROWS_PER_PAGE)%Z in
  js_slice sorted start (start + ROWS_PER_PAGE).

Definition handleSort (f : SortField) (prev : SortConfig) : SortConfig :=
  {| field := Some f;
     dir := if match field prev with Some g => SortField_eqb g f | None => false end
               && match dir prev with Asc => true | Desc => false end
            then Desc else Asc |}.

(** The [featureList] of [renderFeatures] and the badge texts. *)
Definition featureList (features : string) : list string :=
  filter (fun seg => negb (String.eqb seg EmptyString)) (split_on ";"%char features).

Definition renderFeatures (features : string) : list string :=
  map trim (featureList features).

Record rtable := {
  searchQuery : string;
  sortConfig : SortConfig;
  currentPage : Z;
  topNFilter : string
}.

Definition init_table : rtable :=
  {| searchQuery := EmptyString; sortConfig := {| field := None; dir := Asc |};
     currentPage := 1; topNFilter := "all" |}.

Definition rows (recommendations : list recommendation) (t : rtable) : list recommendation :=
  sortedData (sortConfig t) (filteredData recommendations (searchQuery t) (topNFilter t)).

Definition handleSearchChange (query : string) (t : rtable) : rtable :=
  {| searchQuery := query; sortConfig := sortConfig t; currentPage := 1;
     topNFilter := topNFilter t |}.

Definition handleTopNChange (value : string) (t : rtable) : rtable :=
  {| searchQuery := searchQuery t; sortConfig := sortConfig t; currentPage := 1;
     topNFilter := value |}.

Definition setSortConfig (sc : SortConfig) (t : rtable) : rtable :=
  {| searchQuery := searchQuery t; sortConfig := sc; currentPage := currentPage t;
     topNFilter := topNFilter t |}.

Definition setCurrentPage (p : Z) (t : rtable) : rtable :=
  {| searchQuery := searchQuery t; sortConfig := sortConfig t; currentPage := p;
     topNFilter := topNFilter t |}.

Inductive tevent :=
| TSearch (query : string)
| TTopN (value : string)
| TSort (f : SortField)
| TPage (c : Pagination.control).

(** One user action on the table, for a fixed [recommendations] prop;
    [<Pagination>] is rendered only when [totalPages > 1] and calls
    [setCurrentPage]. *)
Definition tstep (recommendations : list recommendation) (t : rtable) (e : tevent) : rtable :=
  match e with
  | TSearch q => handleSearchChange q t
  | TTopN v => handleTopNChange v t
  | TSort f => setSortConfig (handleSort f (sortConfig t)) t
  | TPage c =>
      let tp := totalPages (length (rows recommendations t)) in
      if (1 <? tp)%Z then
        match Pagination.clickTarget (currentPage t) tp c with
        | Some p => setCurrentPage p t
        | None => t
        end
      else t
  end.

Definition trun (recommendations : list recommendation) (es : list tevent) : rtable :=
  fold_left (tstep recommendations) es init_table.

End RecTable.

(** ** Editable data grid ([EditableTable], [components/editable-table]) *)
Module EditTable.

(** The keys of an object, each once, in order of first write. *)
Fixpoint keys_from (seen : list string) (o : obj) : list string :=
  match o with
  | [] => []
  | (k, _) :: r =>
      if existsb (String.eqb k) seen then keys_from seen r
      else k :: keys_from (k :: seen) r
  end.

(** [Object.values(row)] (its order is irrelevant to [.some]). *)
Definition obj_values (o : obj) : list jsval := map (get o) (keys_from [] o).

Definition filteredData (data : list obj) (searchQuery : string) : list obj :=
  if String.eqb (trim searchQuery) EmptyString then data
  else
    let query := Stager.toLowerCase searchQuery in
    filter (fun row => existsb (fun value =>
              includes (Stager.toLowerCase (js_String value)) query) (obj_values row)) data.

Record etable := {
  editingRow : option nat;
  editedData : obj;
  searchQuery : string
}.

Definition startEditing (rowIndex : nat) (row : obj) (t : etable) : etable :=
  {| editingRow := Some rowIndex; editedData := row; searchQuery := searchQuery t |}.

Definition cancelEditing (t : etable) : etable :=
  {| editingRow := None; editedData := []; searchQuery := searchQuery t |}.

(** The new state and the [onUpdate] call made, if any; [hasOnUpdate]
    tells whether the prop was passed. *)
Definition saveEditing (hasOnUpdate : bool) (t : etable) : etable * option (nat * obj) :=
  ({| editingRow := None; editedData := []; searchQuery := searchQuery t |},
   match editingRow t with
   | Some i => if hasOnUpdate then Some (i, editedData t) else None
   | None => None
   end).

Definition handleCellChange (key : string) (value : jsval) (t : etable) : etable :=
  {| editingRow := editingRow t; editedData := editedData t ++ [(key, value)];
     searchQuery := searchQuery t |}.

(** The [onDelete] call made, if any. *)
Definition handleDelete (hasOnDelete confirmed : bool) (rowIndex : nat) : option nat :=
  if hasOnDelete && confirmed then Some rowIndex else None.

End EditTable.

(** ** Endpoints and uploads ([lib/api.ts]) *)
Module Endpoints.

Definition DEFAULT_API_BASE_URL : string := "https://0f1c67d9501e.ngrok-free.app".

(** [process.env.NEXT_PUBLIC_API_URL || DEFAULT] *)
Definition API_BASE_URL (env : option string) : string :=
  match env with
  | Some e => if String.eqb e EmptyString then DEFAULT_API_BASE_URL else e
  | None => DEFAULT_API_BASE_URL
  end.

(** Characters [encodeURIComponent] leaves as they are. *)
Definition is_unreserved (c : ascii) : bool :=
  let n := nat_of_ascii c in
  ((48 <=? n) && (n <=? 57))%nat || ((65 <=? n) && (n <=? 90))%nat
  || ((97 <=? n) && (n <=? 122))%nat
  || existsb (Ascii.eqb c) ["-"; "_"; "."; "!"; "~"; "*"; "'"; "("; ")"]%char.

Definition hex_digit (n : nat) : ascii :=
  ascii_of_nat (if (n <? 10)%nat then 48 + n else 55 + n).

Definition encode_char (c : ascii) : string :=
  if is_unreserved c then String c EmptyString
  else String "%" (String (hex_digit (nat_of_ascii c / 16))
                     (String (hex_digit (nat_of_ascii c mod 16)) EmptyString)).

(** [encodeURIComponent], on the UTF-8 bytes of a well-formed string:
    each byte of a character outside the unreserved set becomes [%XY]. *)
Fixpoint encodeURIComponent (s : string) : string :=
  match s with
  | EmptyString => EmptyString
  | String c r => encode_char c ++ encodeURIComponent r
  end.

(** The exported request functions, with the argument that goes into
    the URL. *)
Inductive api_call :=
| UploadProducts
| UploadUserBehavior
| GenerateRecommendations (userId : string)
| GetStoredRecommendations (userId : string)
| GetAllStoredRecommendations
| AddProduct
| GetProducts
| GetProductById (productId : string)
| UpdateProduct (productId : string)
| DeleteProduct (productId : string)
| AddBehavior
| GetBehaviors
| GetBehaviorById (behaviorId : string)
| UpdateBehavior (behaviorId : string)
| DeleteBehavior (behaviorId : string).

(** Method and [endpoint] of each call. *)
Definition endpoint (c : api_call) : string * string :=
  match c with
  | UploadProducts => ("POST", "/api/upload/products")
  | UploadUserBehavior => ("POST", "/api/upload/user-behavior")
  | GenerateRecommendations u => ("GET", ("/api/recommendations/" ++ encodeURIComponent u)%string)
  | GetStoredRecommendations u =>
      ("GET", ("/api/recommendations/stored/" ++ encodeURIComponent u)%string)
  | GetAllStoredRecommendations => ("GET", "/api/recommendations/stored")
  | AddProduct => ("POST", "/products/add_product")
  | GetProducts => ("GET", "/products/get_products")
  | GetProductById p => ("GET", ("/products/get_product_id/" ++ encodeURIComponent p)%string)
  | UpdateProduct p => ("PUT", ("/products/update_product/" ++ encodeURIComponent p)%string)
  | DeleteProduct p => ("DELETE", ("/products/delete_product/" ++ encodeURIComponent p)%string)
  | AddBehavior => ("POST", "/behavior/add_behavior")
  | GetBehaviors => ("GET", "/behavior/get_behaviors")
  | GetBehaviorById b => ("GET", ("/behavior/get_behavior/" ++ encodeURIComponent b)%string)
  | UpdateBehavior b => ("PUT", ("/behavior/update_behavior/" ++ encodeURIComponent b)%string)
  | DeleteBehavior b => ("DELETE", ("/behavior/delete_behavior/" ++ encodeURIComponent b)%string)
  end.

(** [`${API_BASE_URL}${endpoint}`] *)
Definition url (env : option string) (c : api_call) : string :=
  API_BASE_URL env ++ snd (endpoint c).

(** [uploadFile] once [fetch] has produced a response. *)
Definition uploadFile_response (status : Z) (statusText : string)
  (body : option jsval) : api_result :=
  if Api.response_ok status then
    match body with Some v => ROk v | None => RErr Api.json_parse_error end
  else
    let errorData := match body with Some v => v | None => JObj [] end in
    match errorData with
    | JNull => RErr Api.null_detail_error
    | _ =>
        let detail := js_prop errorData "detail" in
        RErr (js_String
          (js_or (js_prop (js_index detail 0) "msg")
          (js_or detail
          (js_or (js_prop errorData "message")
                 (JStr ("Upload Error: " ++ string_of_Z status ++ " " ++ statusText))))))
    end.

(** [uploadBothFiles]: the uploads sent, in order, and the result object
    or the error thrown; [productsResp] and [behaviorResp] are the
    outcomes of the two [uploadFile] calls. *)
Definition uploadBothFiles (productsFile behaviorFile : option Stager.file)
  (productsResp behaviorResp : api_result) : list api_call * api_result :=
  let behaviorStep (sent : list api_call) (results : obj) :=
    match behaviorFile with
    | None => (sent, ROk (JObj results))
    | Some _ =>
        match behaviorResp with
        | ROk v => (sent ++ [UploadUserBehavior], ROk (JObj (results ++ [("behavior", v)])))
        | RErr m => (sent ++ [UploadUserBehavior], RErr m)
        end
    end in
  match productsFile with
  | None => behaviorStep [] []
  | Some _ =>
      match productsResp with
      | ROk v => behaviorStep [UploadProducts] [("products", v)]
      | RErr m => ([UploadProducts], RErr m)
      end
  end.

End Endpoints.

(** ** Bulk upload of the behaviour and catalog pages ([handleUpload]) *)
Module PageUpload.

Import Endpoints.

Record uploadRes := {
  u_rows : list jsval;
  u_sent : list api_call;
  u_toasts : list toast;
  u_isLoading : bool
}.

(** The two pages run the same code; they differ in the list refresh:
    [fetchCall] is the request of [fetchBehaviors] ([GetBehaviors]) or
    [fetchProducts] ([GetProducts]) and [fetchApply] its update of the
    list ([Normalize.fetchBehaviors] or [Normalize.fetchProducts]).  The
    refresh runs without [showToast] and catches its own errors.
    [productsResp], [behaviorResp] and [fetchResp] are the outcomes of
    the requests, in order. *)
Definition handleUpload (fetchCall : api_call)
  (fetchApply : list jsval -> jsval -> list jsval) (rows : list jsval)
  (catalogFile behaviourFile : option Stager.file)
  (productsResp behaviorResp fetchResp : api_result) : uploadRes :=
  let failed sent toasts msg :=
    {| u_rows := rows; u_sent := sent;
       u_toasts := toasts ++ [ToastError "Upload failed" msg]; u_isLoading := false |} in
  let refresh sent toasts :=
    {| u_rows := match fetchResp with ROk data => fetchApply rows data | RErr _ => rows end;
       u_sent := sent ++ [fetchCall]; u_toasts := toasts; u_isLoading := false |} in
  let behaviourStep sent toasts :=
    match behaviourFile with
    | None => refresh sent toasts
    | Some _ =>
        match behaviorResp with
        | ROk _ => refresh (sent ++ [UploadUserBehavior])
                     (toasts ++ [ToastSuccess "User behavior uploaded successfully"])
        | RErr m => failed (sent ++ [UploadUserBehavior]) toasts m
        end
    end in
  match catalogFile with
  | None => behaviourStep [] []
  | Some _ =>
      match productsResp with
      | ROk _ => behaviourStep [UploadProducts] [ToastSuccess "Products uploaded successfully"]
      | RErr m => failed [UploadProducts] [] m
      end
  end.

End PageUpload.

(** Sample rows for the concrete runs below. *)
Definition sample_recommendation (id : string) (score : Z) : RecTable.recommendation :=
  {| RecTable.product_id := id; RecTable.name := "Phone " ++ id; RecTable.brand := "Acme";
     RecTable.category := "Phones"; RecTable.price := 100; RecTable.rating := 4;
     RecTable.features := "5G;OLED"; RecTable.similarity_score := score;
     RecTable.overall_score := score |}.


(** The fields read for an error text, in priority order: [apiFetch]
    reads [detail?.[0]?.msg], [detail] and [message]; the upload request
    reads [message] and [error]. *)
Definition apiFetch_error_fields (errorData : jsval) : list jsval :=
  [js_prop (js_index (js_prop errorData "detail") 0) "msg";
   js_prop errorData "detail"; js_prop errorData "message"].

Definition upload_error_fields (errorData : jsval) : list jsval :=
  [js_prop errorData "message"; js_prop errorData "error"].

(** [v] is the first truthy value of [l], found at position [i]. *)
Definition first_truthy_at (l : list jsval) (i : nat) (v : jsval) : Prop :=
  nth_error l i = Some v /\ truthy v = true /\
  forall j w, (j < i)%nat -> nth_error l j = Some w -> truthy w = false.

(* ================================================================== *)
(** * Proofs *)

(** ** Objects and lists *)

Lemma lookup_last_app (k : string) (a b : obj) :
  lookup_last k (a ++ b) =
  match lookup_last k b with Some w => Some w | None => lookup_last k a end.
Proof.
  induction a as [|[k' v] a IH]; simpl.
  - destruct (lookup_last k b); reflexivity.
  - rewrite IH. destruct (lookup_last k b); reflexivity.
Qed.

Lemma get_app (a b : obj) (k : string) :
  get (a ++ b) k = if has_key k b then get b k else get a k.
Proof.
  unfold get, has_key. rewrite lookup_last_app.
  destruct (lookup_last k b); reflexivity.
Qed.

Lemma nth_error_list_set_eq {A} (l : list A) (i : nat) (x y : A) :
  nth_error l i = Some y -> nth_error (list_set l i x) i = Some x.
Proof.
  revert i; induction l as [|z l IH]; intros [|i] H; simpl in *;
    try discriminate; auto.
Qed.

Lemma Forall2_list_set {A} (R : A -> A -> Prop) (l : list A) (i : nat) (x y : A) :
  (forall z, R z z) -> R x y -> Forall2 R (list_set l i x) (list_set l i y).
Proof.
  intros Hr Hxy. revert i; induction l as [|z l IH]; intros [|i]; simpl;
    constructor; auto; clear IH; induction l; constructor; auto.
Qed.

(** On the editor's rows [{...row, ...edits}] (edits never touching the
    read-only [product_id]) the catalog page's failure write
    [{...prev, ...data}] and success write [{...data, product_id}] agree. *)
Lemma catalog_update_paths_agree (item edits : obj) :
  has_key "product_id" edits = false ->
  obj_equiv (item ++ (item ++ edits))
            ((item ++ edits) ++ [("product_id", get item "product_id")]).
Proof.
  intros Hpid k. unfold get. rewrite !lookup_last_app. simpl.
  destruct (String.eqb k "product_id") eqn:E.
  - apply String.eqb_eq in E; subst k.
    unfold has_key in Hpid. destruct (lookup_last "product_id" edits); [discriminate|].
    destruct (lookup_last "product_id" item); reflexivity.
  - destruct (lookup_last k edits), (lookup_last k item); reflexivity.
Qed.

(** ** Mutation coordinator *)

(** C1: when the remote [update] or [delete] call fails, the handler
    still applies the local mutation and raises an error toast: a failed
    behaviour update sets the row to [{...prev[rowIndex], ...data}]
    exactly as a successful one does, a failed catalog update writes every
    caller-supplied field into the row (and agrees with the success path
    on every property for the editor's rows [{...row, ...edits}], whose
    edits never touch the read-only [product_id]), a failed delete
    removes the row exactly as a successful one does; a failed [create]
    re-throws its error and leaves the list unchanged. *)
Theorem C1_failed_mutation_policy :
  forall (rows : list obj) (i : nat) (item data : obj) (msg : string) (v : jsval),
    nth_error rows i = Some item ->
    (truthy (get item "_id") = true ->
       m_rows (Behaviour.handleUpdate rows i data (RErr msg)) = list_set rows i (item ++ data) /\
       m_rows (Behaviour.handleUpdate rows i data (RErr msg))
         = m_rows (Behaviour.handleUpdate rows i data (ROk v)) /\
       m_sent (Behaviour.handleUpdate rows i data (RErr msg)) <> [] /\
       In (ToastError "Failed to update behavior" msg)
          (m_toasts (Behaviour.handleUpdate rows i data (RErr msg))) /\
       m_rows (Behaviour.handleDelete rows i (RErr msg)) = remove_at rows i /\
       m_rows (Behaviour.handleDelete rows i (RErr msg))
         = m_rows (Behaviour.handleDelete rows i (ROk v)) /\
       m_sent (Behaviour.handleDelete rows i (RErr msg)) <> [] /\
       In (ToastError "Failed to delete behavior" msg)
          (m_toasts (Behaviour.handleDelete rows i (RErr msg)))) /\
    (m_rows (Catalog.handleUpdate rows i data (RErr msg)) = list_set rows i (item ++ data) /\
     (forall k, has_key k data = true ->
        exists row, nth_error (m_rows (Catalog.handleUpdate rows i data (RErr msg))) i = Some row
                    /\ get row k = get data k) /\
     (forall edits, has_key "product_id" edits = false ->
        Forall2 obj_equiv (m_rows (Catalog.handleUpdate rows i (item ++ edits) (RErr msg)))
                          (m_rows (Catalog.handleUpdate rows i (item ++ edits) (ROk v)))) /\
     m_sent (Catalog.handleUpdate rows i data (RErr msg)) <> [] /\
     In (ToastError "Failed to update product" msg)
        (m_toasts (Catalog.handleUpdate rows i data (RErr msg))) /\
     m_rows (Catalog.handleDelete rows i (RErr msg)) = remove_at rows i /\
     m_rows (Catalog.handleDelete rows i (RErr msg))
       = m_rows (Catalog.handleDelete rows i (ROk v)) /\
     In (ToastError "Failed to delete product" msg)
        (m_toasts (Catalog.handleDelete rows i (RErr msg)))) /\
    (forall u p a t,
       m_rows (Behaviour.handleAddFromDialog rows u p a t (RErr msg)) = rows /\
       m_thrown (Behaviour.handleAddFromDialog rows u p a t (RErr msg)) = Some msg) /\
    (forall productData,
       m_rows (Catalog.handleAddFromDialog rows productData (RErr msg)) = rows /\
       m_thrown (Catalog.handleAddFromDialog rows productData (RErr msg)) = Some msg).
Proof.
  intros rows i item data msg v Hnth.
  split; [|split; [|split]].
  - intros Hid. unfold Behaviour.handleUpdate, Behaviour.handleDelete.
    rewrite Hnth, Hid. simpl.
    repeat split; try discriminate; left; reflexivity.
  - unfold Catalog.handleUpdate, Catalog.handleDelete. rewrite Hnth. simpl.
    repeat split; try discriminate; try (left; reflexivity).
    + intros k Hk. exists (item ++ data). split.
      * exact (nth_error_list_set_eq rows i _ item Hnth).
      * rewrite get_app, Hk. reflexivity.
    + intros edits Hpid. apply Forall2_list_set; [intros z k; reflexivity|].
      apply catalog_update_paths_agree; exact Hpid.
  - intros u p a t. split; reflexivity.
  - intros pd. split; reflexivity.
Qed.

(** C2: a behaviour record whose [_id] is missing (falsy) is neither
    updated nor deleted: no request is sent, the list is unchanged and a
    "Missing _id field" error toast is raised; a record carrying its
    [_id] is sent to the server under that identifier. *)
Theorem C2_missing_identity_fails_fast :
  forall (rows : list obj) (i : nat) (item data : obj) (resp : api_result),
    nth_error rows i = Some item ->
    (truthy (get item "_id") = false ->
       Behaviour.handleUpdate rows i data resp =
         {| m_rows := rows; m_sent := [];
            m_toasts := [ToastError "Cannot update: Missing _id field"
                           "Please refresh the page to load the latest data with IDs"];
            m_thrown := None |} /\
       Behaviour.handleDelete rows i resp =
         {| m_rows := rows; m_sent := [];
            m_toasts := [ToastError "Cannot delete: Missing _id field"
                           "Please refresh the page to load the latest data with IDs"];
            m_thrown := None |}) /\
    (truthy (get item "_id") = true ->
       m_sent (Behaviour.handleUpdate rows i data resp) =
         [RUpdateBehavior (js_String (get item "_id"))
                          (Behaviour.behaviorData_of_update item data)] /\
       m_sent (Behaviour.handleDelete rows i resp) =
         [RDeleteBehavior (js_String (get item "_id"))]).
Proof.
  intros rows i item data resp Hnth. split; intros Hid;
    unfold Behaviour.handleUpdate, Behaviour.handleDelete, Behaviour.behaviorId, js_or;
    rewrite Hnth, Hid; simpl.
  - split; reflexivity.
  - destruct resp; split; reflexivity.
Qed.

(** ** Response normalisation *)

(** C6 (as the code has it): the behaviours page maps [{behaviors: xs}],
    a bare [xs] and [{data: xs}] to [xs] and any other value to [[]]; the
    catalog page maps [{products: xs}], [xs] and [{data: xs}] to [xs] but
    keeps its current list when no rule matches; the stored-recommendations
    fetch maps [{recommendations: xs}] and [xs] to [xs] (taking a truthy
    [explanation], else keeping the current one) and keeps its current
    list for every other value, [{data: xs}] included. *)
Theorem C6_normalize_per_page :
  (forall o xs, get o "behaviors" = JArr xs -> Normalize.behaviorsList (JObj o) = xs) /\
  (forall xs, Normalize.behaviorsList (JArr xs) = xs) /\
  (forall o xs, Normalize.as_array (get o "behaviors") = None -> get o "data" = JArr xs ->
     Normalize.behaviorsList (JObj o) = xs) /\
  (forall raw, Normalize.as_array raw = None ->
     Normalize.as_array (js_prop raw "behaviors") = None ->
     Normalize.as_array (js_prop raw "data") = None ->
     Normalize.behaviorsList raw = []) /\
  (forall cat o xs, get o "products" = JArr xs -> Normalize.fetchProducts cat (JObj o) = xs) /\
  (forall cat xs, Normalize.fetchProducts cat (JArr xs) = xs) /\
  (forall cat o xs, Normalize.as_array (get o "products") = None -> get o "data" = JArr xs ->
     Normalize.fetchProducts cat (JObj o) = xs) /\
  (forall cat raw, Normalize.as_array raw = None ->
     Normalize.as_array (js_prop raw "products") = None ->
     Normalize.as_array (js_prop raw "data") = None ->
     Normalize.fetchProducts cat raw = cat) /\
  (forall recs e o xs, get o "recommendations" = JArr xs ->
     Normalize.fetchStoredRecommendations recs e (JObj o)
       = (xs, if truthy (get o "explanation") then get o "explanation" else e)) /\
  (forall recs e xs, Normalize.fetchStoredRecommendations recs e (JArr xs) = (xs, e)) /\
  (forall recs e raw, Normalize.as_array (js_prop raw "recommendations") = None ->
     Normalize.as_array raw = None ->
     Normalize.fetchStoredRecommendations recs e raw = (recs, e)).
Proof.
  unfold Normalize.behaviorsList, Normalize.fetchProducts,
    Normalize.fetchStoredRecommendations.
  repeat split.
  - intros o xs H. simpl. rewrite H. reflexivity.
  - intros o xs H1 H2. simpl. rewrite H1, H2. reflexivity.
  - intros raw H1 H2 H3. rewrite H1, H2, H3. reflexivity.
  - intros cat o xs H. simpl. rewrite H. reflexivity.
  - intros cat o xs H1 H2. simpl. rewrite H1, H2. reflexivity.
  - intros cat raw H1 H2 H3. rewrite H1, H2, H3. reflexivity.
  - intros recs e o xs H. simpl. rewrite H. reflexivity.
  - intros recs e raw H1 H2. rewrite H1, H2. reflexivity.
Qed.

(** C6 fails as stated: on the catalog page a response matching no rule
    leaves the current (non-empty) list in place instead of emptying it. *)
Lemma C6_counterexample :
  Normalize.fetchProducts [JStr "P1"] (JObj []) = [JStr "P1"] /\
  Normalize.fetchProducts [JStr "P1"] (JObj []) <> [].
Proof. split; [reflexivity | discriminate]. Qed.

(** ** File stager *)

Section StagerProofs.
Import Stager.

Lemma scan_spec (sel : list file) : forall n v l b n',
  scan sel n = (v, l, b, n') ->
  map mfile v = filter smallCSV sel /\ l = filter largeCSV sel /\
  b = existsb (fun f => negb (isCSV f)) sel.
Proof.
  induction sel as [|f r IH]; intros n v l b n' H; simpl in H.
  - inversion H; subst. repeat split.
  - unfold smallCSV, largeCSV; simpl.
    destruct (isCSV f) eqn:Hc; simpl.
    + rewrite Z.leb_antisym.
      destruct (MAX_FILE_SIZE <? fsize f)%Z; simpl.
      * destruct (scan r n) as [[[v0 l0] b0] n0] eqn:E. inversion H; subst.
        destruct (IH _ _ _ _ _ E) as [H1 [H2 H3]].
        unfold smallCSV, largeCSV in *. subst. auto.
      * destruct (scan r (S n)) as [[[v0 l0] b0] n0] eqn:E. inversion H; subst.
        destruct (IH _ _ _ _ _ E) as [H1 [H2 H3]].
        unfold smallCSV, largeCSV in *. simpl. rewrite H1. subst. auto.
    + destruct (scan r n) as [[[v0 l0] b0] n0] eqn:E. inversion H; subst.
      destruct (IH _ _ _ _ _ E) as [H1 [H2 H3]].
      unfold smallCSV, largeCSV in *. subst. auto.
Qed.

Lemma skipn_app_length {A} (a b : list A) : skipn (List.length a) (a ++ b) = b.
Proof. induction a; simpl; auto. Qed.

Lemma firstn_app_length {A} (a b : list A) : firstn (List.length a) (a ++ b) = a.
Proof. induction a; simpl; f_equal; auto. Qed.

Lemma map_mfile_metas (l : list file) : forall n, map mfile (metas l n) = l.
Proof. induction l; simpl; intros; f_equal; auto. Qed.

End StagerProofs.

(** C7: [handleFilesSelected] keeps the staged files already there and
    appends exactly the selected files that are CSV (type [text/csv] or a
    name ending in [.csv] after lower-casing) and at most 5 MB, in
    selection order, with no confirmation step; if any selected file is
    not CSV, the error message is "Only CSV files are allowed". *)
Theorem C7_stage_small_csv :
  forall (s : Stager.stager) (sel : list Stager.file),
    let s' := Stager.handleFilesSelected s sel in
    firstn (List.length (Stager.files s)) (Stager.files s') = Stager.files s /\
    map Stager.mfile (skipn (List.length (Stager.files s)) (Stager.files s'))
      = filter (fun f => Stager.isCSV f && (Stager.fsize f <=? Stager.MAX_FILE_SIZE)%Z) sel /\
    (existsb (fun f => negb (Stager.isCSV f)) sel = true ->
       Stager.error s' = "Only CSV files are allowed") /\
    (forall f, Stager.isCSV f =
       String.eqb (Stager.ftype f) "text/csv"
       || Stager.endsWith (Stager.toLowerCase (Stager.fname f)) ".csv").
Proof.
  intros s sel s'. unfold s', Stager.handleFilesSelected.
  destruct (Stager.scan sel (Stager.nonce s)) as [[[v l] b] n'] eqn:E.
  destruct (scan_spec _ _ _ _ _ _ E) as [H1 [H2 H3]].
  simpl. rewrite firstn_app_length, skipn_app_length, H1.
  repeat split.
  - intros Hb. rewrite <- H3 in Hb. rewrite Hb. reflexivity.
Qed.

(** C8: a selected CSV file above 5 MB goes to the pending set and is
    not among the files staged by the selection; confirming appends the
    whole pending batch (in order) to the staged files and empties the
    pending set; cancelling empties the pending set and leaves the staged
    files unchanged. *)
Theorem C8_large_file_gate :
  forall (s : Stager.stager) (sel : list Stager.file),
    (forall f, In f sel -> Stager.isCSV f = true -> (Stager.MAX_FILE_SIZE < Stager.fsize f)%Z ->
       In f (Stager.pendingLargeFiles (Stager.handleFilesSelected s sel)) /\
       ~ In f (map Stager.mfile (skipn (List.length (Stager.files s))
                                       (Stager.files (Stager.handleFilesSelected s sel))))) /\
    Stager.files (Stager.handleConfirmLargeFiles s)
      = Stager.files s ++ Stager.metas (Stager.pendingLargeFiles s) (Stager.nonce s) /\
    map Stager.mfile (Stager.metas (Stager.pendingLargeFiles s) (Stager.nonce s))
      = Stager.pendingLargeFiles s /\
    Stager.pendingLargeFiles (Stager.handleConfirmLargeFiles s) = [] /\
    Stager.files (Stager.handleCancelLargeFiles s) = Stager.files s /\
    Stager.pendingLargeFiles (Stager.handleCancelLargeFiles s) = [].
Proof.
  intros s sel. split.
  - intros f Hin Hcsv Hbig. unfold Stager.handleFilesSelected.
    destruct (Stager.scan sel (Stager.nonce s)) as [[[v l] b] n'] eqn:E.
    destruct (scan_spec _ _ _ _ _ _ E) as [H1 [H2 H3]].
    simpl. rewrite skipn_app_length, H1. subst l. split.
    + assert (Hl : In f (filter Stager.largeCSV sel)).
      { apply filter_In. split; auto. unfold Stager.largeCSV. rewrite Hcsv.
        apply Z.ltb_lt in Hbig. rewrite Hbig. reflexivity. }
      destruct (filter Stager.largeCSV sel); [contradiction | exact Hl].
    + intros Hf. apply filter_In in Hf as [_ Hs].
      unfold Stager.smallCSV in Hs. rewrite Hcsv in Hs. simpl in Hs. apply Z.leb_le in Hs. lia.
  - repeat split. apply map_mfile_metas.
Qed.

(** ** Upload sessions *)

Import Stager Upload.

Ltac inv_opt := repeat match goal with
 | H : Some _ = Some _ |- _ => injection H as H; subst
 | H : None = Some _ |- _ => discriminate H
 | H : (if ?b then _ else _) = _ |- _ => destruct b eqn:?
 | H : match ?o with _ => _ end = _ |- _ => destruct o eqn:?
 end.

Lemma sess_run_from_app st l e :
  sess_run_from st (l ++ [e]) =
  match sess_run_from st l with Some st' => sess_step st' e | None => None end.
Proof.
  revert st; induction l as [|e' l IH]; intro st; simpl.
  - destruct (sess_step st e); reflexivity.
  - destruct (sess_step st e'); [apply IH | reflexivity].
Qed.

Lemma sess_run_from_app_gen st l1 l2 :
  sess_run_from st (l1 ++ l2) =
  match sess_run_from st l1 with Some st' => sess_run_from st' l2 | None => None end.
Proof.
  revert st; induction l1 as [|e l IH]; intro st; simpl; [reflexivity|].
  destruct (sess_step st e); [apply IH|reflexivity].
Qed.

Lemma entries_app h l h' e :
  entries h (l ++ [(h', e)]) = entries h l ++ (if Nat.eqb h h' then [e] else []).
Proof.
  unfold entries. rewrite filter_app, map_app. simpl. destruct (Nat.eqb h h'); reflexivity.
Qed.

Lemma finished_stuck r st : sess_run_from SFinished r = Some st -> r = [] /\ st = SFinished.
Proof. destruct r as [|e r]; simpl; [intro H; inv_opt; auto | destruct e; discriminate]. Qed.

Lemma terminal_finishes st o p st' : sess_step st (EvTerminal o p) = Some st' -> st' = SFinished.
Proof. destruct st; simpl; intro H; inv_opt; auto. Qed.

Lemma step_running m fs q e st1 : sess_step (SRunning m fs q) e = Some st1 ->
  (exists p, st1 = SRunning m fs p /\ e = EvProgress p) \/
  (st1 = SFinished /\ exists o p, e = EvTerminal o p).
Proof. destruct e; simpl; intro H; inv_opt; eauto 6. Qed.

Lemma running_keep r m fs q m' fs' p :
  sess_run_from (SRunning m fs q) r = Some (SRunning m' fs' p) -> m' = m /\ fs' = fs.
Proof.
  revert q; induction r as [|e r IH]; intros q H; cbn [sess_run_from] in H.
  - inv_opt; auto.
  - destruct (sess_step (SRunning m fs q) e) as [st1|] eqn:E; [|simpl in H; discriminate].
    destruct (step_running _ _ _ _ _ E) as [[p' [Hst _]]|[Hst _]]; subst st1.
    + eapply IH; eauto.
    + apply finished_stuck in H as [_ H]; discriminate.
Qed.

Lemma running_start l m fs p : sess_run l = Some (SRunning m fs p) ->
  exists r, l = EvStart m fs :: r.
Proof.
  unfold sess_run; destruct l as [|e r]; simpl; intro H; [discriminate|].
  destruct e; simpl in H; try discriminate.
  apply running_keep in H as [-> ->]; eauto.
Qed.

Lemma fresh_nil l st : sess_run_from st l = Some SFresh -> l = [] /\ st = SFresh.
Proof.
  revert st; induction l as [|e l IH]; intros st H; cbn [sess_run_from] in H; [inv_opt; auto|].
  destruct (sess_step st e) as [st1|] eqn:E; [|simpl in H; discriminate].
  apply IH in H as [_ ->]. destruct st, e; simpl in E; inv_opt; discriminate.
Qed.

Lemma progress_eqb_refl p : progress_eqb p p = true.
Proof. unfold progress_eqb; destruct (progress_eq_dec p p); congruence. Qed.

Lemma progress_eqb_eq p q : progress_eqb p q = true -> p = q.
Proof. unfold progress_eqb; destruct (progress_eq_dec p q); congruence. Qed.

Lemma pct_mono a b t : (0 < t)%Z -> (a <= b)%Z -> (pct a t <= pct b t)%Z.
Proof. intros; unfold pct; apply Z.div_le_mono; lia. Qed.

Lemma pct_zero t : (0 < t)%Z -> pct 0 t = 0%Z.
Proof. intros; unfold pct; apply Z.div_small; lia. Qed.

Lemma Inv_core c s s' : core s' = core s -> Inv c s -> Inv c s'.
Proof.
  intros E I; destruct s, s'; unfold core in E; simpl in E; injection E; intros; subst.
  destruct I; split; assumption.
Qed.

Lemma Inv_init c : Inv c init_page.
Proof.
  split; simpl; try discriminate.
  - intros h. unfold entries, expected; simpl. destruct h; reflexivity.
Qed.

Lemma running_entries c s h m fs p :
  Inv c s -> expected s h = SRunning m fs p -> exists r, entries h (log s) = EvStart m fs :: r.
Proof. intros I E. apply running_start with p. rewrite (inv_log _ _ I h), E. reflexivity. Qed.

Lemma expected_session s : (1 <= session s)%nat -> in_flight s = true ->
  expected s (session s) = SRunning (is_mock s) (session_files s) (uploadProgress s).
Proof.
  intros H1 H2; unfold expected.
  replace (Nat.eqb (session s) 0) with false by (symmetry; apply Nat.eqb_neq; lia).
  rewrite Nat.ltb_irrefl, H2; reflexivity.
Qed.

(** Older sessions of a reachable page are complete mock traces. *)
Lemma mock_log_other c s h fs rest :
  Inv c s -> entries h (log s) = EvStart true fs :: rest ->
  (h <> session s \/ mock_loop s = None) ->
  fs <> [] /\ EvStart true fs :: rest = mock_trace c fs.
Proof.
  intros I E D. destruct (inv_mock_log _ _ I _ _ _ E) as [Hne [[-> [_ [n [Hm _]]]]|Ht]].
  - destruct D as [D|D]; [congruence|rewrite Hm in D; discriminate].
  - auto.
Qed.

Lemma log_append s s' h e :
  (forall h', sess_run (entries h' (log s)) = Some (expected s h')) ->
  log s' = log s ++ [(h, e)] ->
  (forall h', h' <> h -> expected s' h' = expected s h') ->
  sess_step (expected s h) e = Some (expected s' h) ->
  forall h', sess_run (entries h' (log s')) = Some (expected s' h').
Proof.
  intros Hl Elog Hother Hst h'. rewrite Elog, entries_app.
  destruct (Nat.eqb h' h) eqn:Eh.
  - apply Nat.eqb_eq in Eh; subst h'. unfold sess_run; rewrite sess_run_from_app.
    fold (sess_run (entries h (log s))); rewrite Hl; exact Hst.
  - apply Nat.eqb_neq in Eh. rewrite app_nil_r, Hother by exact Eh. apply Hl.
Qed.

Lemma expected_new_session s s' :
  session s' = S (session s) -> in_flight s = false ->
  forall h, h <> session s' -> expected s' h = expected s h.
Proof.
  intros Es Hf h Hh. rewrite Es in Hh. unfold expected. rewrite Es, Hf.
  destruct (Nat.eqb h 0) eqn:E0; [reflexivity|]. apply Nat.eqb_neq in E0.
  destruct (Nat.ltb (S (session s)) h) eqn:E1; simpl.
  - apply Nat.ltb_lt in E1. replace (Nat.ltb (session s) h) with true by (symmetry; apply Nat.ltb_lt; lia). reflexivity.
  - apply Nat.ltb_ge in E1. replace (Nat.ltb (session s) h) with false by (symmetry; apply Nat.ltb_ge; lia).
    replace (Nat.ltb h (S (session s))) with true by (symmetry; apply Nat.ltb_lt; lia).
    destruct (Nat.ltb h (session s)); reflexivity.
Qed.

Lemma expected_next s : expected s (S (session s)) = SFresh.
Proof. unfold expected. replace (Nat.ltb (session s) (S (session s))) with true by (symmetry; apply Nat.ltb_lt; lia). rewrite orb_true_r; reflexivity. Qed.

Lemma idle_facts c s : Inv c s -> isUploading s = false ->
  xhr_active s = false /\ mock_loop s = None /\ abortController s = None /\ in_flight s = false.
Proof.
  intros I Hu.
  assert (Hx : xhr_active s = false).
  { unfold xhr_active; destruct (xhr_req s) as [x|] eqn:Ex; [|reflexivity].
    destruct (x_active x) eqn:Ea; [|reflexivity].
    destruct (inv_xhr _ _ I x Ex Ea) as (_&_&_&Hu'&_); congruence. }
  assert (Hm : mock_loop s = None).
  { destruct (mock_loop s) eqn:Em; [|reflexivity].
    destruct (inv_mock _ _ I _ Em) as [Hu' _]; congruence. }
  assert (Ha : abortController s = None).
  { destruct (abortController s) eqn:Ea; [|reflexivity].
    destruct (inv_ctl _ _ I _ Ea) as (x & Ex & Hact & _).
    destruct (inv_xhr _ _ I x Ex Hact) as (_&_&_&Hu'&_); congruence. }
  unfold in_flight, is_mock; rewrite Hx, Hm; auto.
Qed.

Lemma Inv_upload c s b : Inv c s -> canUpload s = true -> Inv c (handleUpload b s).
Proof.
  intros I Hc. unfold canUpload in Hc. apply andb_prop in Hc as [Hf Hu].
  apply negb_true_iff in Hu. apply negb_true_iff in Hf.
  destruct (idle_facts c s I Hu) as (Hx & Hm & Ha & Hfl).
  assert (Hfs : files (stg s) <> []) by (destruct (files (stg s)); simpl in Hf; discriminate).
  unfold handleUpload; destruct (mockMode s) eqn:Emm.
  - set (s' := emit _ _ _).
    assert (P : xhr_req s' = xhr_req s /\ session s' = S (session s) /\ mock_loop s' = Some 0%Z
              /\ isUploading s' = true /\ abortController s' = None
              /\ uploadProgress s' = reset_progress /\ session_files s' = files (stg s)
              /\ log s' = log s ++ [(S (session s), EvStart true (files (stg s)))])
      by (subst s'; simpl; rewrite Ha; repeat split; reflexivity).
    clearbody s'. destruct P as (Px & Ps & Pm & Pu & Pa & Pp & Pf & Pl).
    assert (Hx' : xhr_active s' = false) by (unfold xhr_active; rewrite Px; exact Hx).
    assert (Hfl' : in_flight s' = true) by (unfold in_flight, is_mock; rewrite Pm, orb_true_r; reflexivity).
    split.
    + intros x Ex Ea. unfold xhr_active in Hx'. rewrite Ex, Ea in Hx'. discriminate.
    + intros h Eh; congruence.
    + intros i Ei. rewrite Pm in Ei; injection Ei as <-.
      rewrite Pu, Hx', Pa, Ps, Pp. repeat split; try (simpl; lia). exists 0%nat; split; [lia|reflexivity].
    + intros _; exact Hfl'.
    + apply (log_append s s' (S (session s)) (EvStart true (files (stg s))) (inv_log _ _ I) Pl).
      * rewrite <- Ps; apply expected_new_session; assumption.
      * rewrite expected_next. rewrite <- Ps, expected_session by (rewrite ?Ps; lia || assumption).
        unfold is_mock; rewrite Pm, Pf, Pp; reflexivity.
    + intros h fs rest E. rewrite Pl, entries_app in E.
      destruct (Nat.eqb h (S (session s))) eqn:Eh.
      * apply Nat.eqb_eq in Eh; subst h.
        assert (E0 : entries (S (session s)) (log s) = []).
        { pose proof (inv_log _ _ I (S (session s))) as L. rewrite expected_next in L.
          apply fresh_nil in L; tauto. }
        rewrite E0 in E; simpl in E; injection E as <- <-.
        split; [exact Hfs|left]. split; [auto|]. split; [auto|]. exists 0%nat; split; [exact Pm|reflexivity].
      * rewrite app_nil_r in E. destruct (mock_log_other c s h fs rest I E) as [H1 H2]; [right; exact Hm|].
        split; [exact H1|right; exact H2].
  - set (s' := emit _ _ _).
    assert (P : xhr_req s' = Some (mkXhr (S (session s)) true 0 b) /\ session s' = S (session s)
              /\ mock_loop s' = None
              /\ isUploading s' = true /\ abortController s' = Some (S (session s))
              /\ uploadProgress s' = reset_progress /\ session_files s' = files (stg s)
              /\ log s' = log s ++ [(S (session s), EvStart false (files (stg s)))])
      by (subst s'; simpl; rewrite Hm; repeat split; reflexivity).
    clearbody s'. destruct P as (Px & Ps & Pm & Pu & Pa & Pp & Pf & Pl).
    assert (Hfl' : in_flight s' = true) by (unfold in_flight, xhr_active; rewrite Px; reflexivity).
    split.
    + intros x Ex Ea. rewrite Px in Ex; injection Ex as <-; simpl.
      rewrite Ps, Pm, Pu, Pa, Pp. repeat split; try lia. intro Ht; simpl; rewrite pct_zero by exact Ht; lia.
    + intros h Eh. rewrite Pa in Eh; injection Eh as <-. eexists; split; [exact Px|]; auto.
    + intros i Ei; congruence.
    + intros _; exact Hfl'.
    + apply (log_append s s' (S (session s)) (EvStart false (files (stg s))) (inv_log _ _ I) Pl).
      * rewrite <- Ps; apply expected_new_session; assumption.
      * rewrite expected_next. rewrite <- Ps, expected_session by (rewrite ?Ps; lia || assumption).
        unfold is_mock; rewrite Pm, Pf, Pp; reflexivity.
    + intros h fs rest E. rewrite Pl, entries_app in E.
      destruct (Nat.eqb h (S (session s))) eqn:Eh.
      * apply Nat.eqb_eq in Eh; subst h.
        assert (E0 : entries (S (session s)) (log s) = []).
        { pose proof (inv_log _ _ I (S (session s))) as L. rewrite expected_next in L.
          apply fresh_nil in L; tauto. }
        rewrite E0 in E; simpl in E; discriminate.
      * rewrite app_nil_r in E. destruct (mock_log_other c s h fs rest I E) as [H1 H2]; [right; exact Hm|].
        split; [exact H1|right; exact H2].
Qed.

Lemma expected_same_session s s' :
  session s' = session s -> forall h, h <> session s -> expected s' h = expected s h.
Proof.
  intros Es h Hh. unfold expected. rewrite Es.
  destruct (Nat.eqb h 0 || Nat.ltb (session s) h) eqn:E1; [reflexivity|].
  apply orb_false_iff in E1 as [_ E1]. apply Nat.ltb_ge in E1.
  replace (Nat.ltb h (session s)) with true by (symmetry; apply Nat.ltb_lt; lia). reflexivity.
Qed.

Lemma active_facts c s x : Inv c s -> xhr_req s = Some x -> x_active x = true ->
  x_handle x = session s /\ (1 <= session s)%nat /\ mock_loop s = None /\
  isUploading s = true /\ abortController s = Some (x_handle x) /\ (0 <= x_loaded x)%Z /\
  ((0 < x_total x)%Z -> (overall (uploadProgress s) <= pct (x_loaded x) (x_total x))%Z) /\
  in_flight s = true /\
  expected s (session s) = SRunning false (session_files s) (uploadProgress s).
Proof.
  intros I Ex Ea. destruct (inv_xhr _ _ I x Ex Ea) as (H1&H2&H3&H4&H5&H6&H7).
  assert (F : in_flight s = true) by (unfold in_flight, xhr_active; rewrite Ex, Ea; reflexivity).
  repeat split; auto. rewrite expected_session by assumption. unfold is_mock; rewrite H3; reflexivity.
Qed.

Lemma real_mock_log c s s' e :
  Inv c s -> expected s (session s) = SRunning false (session_files s) (uploadProgress s) ->
  mock_loop s = None -> log s' = log s ++ [(session s, e)] ->
  forall h fs rest, entries h (log s') = EvStart true fs :: rest ->
  fs <> [] /\ EvStart true fs :: rest = mock_trace c fs.
Proof.
  intros I Hexp Hm Pl h fs rest E. rewrite Pl, entries_app in E.
  destruct (Nat.eqb h (session s)) eqn:Eh.
  - apply Nat.eqb_eq in Eh; subst h.
    destruct (running_entries c s _ _ _ _ I Hexp) as [r Er]. rewrite Er in E. discriminate.
  - rewrite app_nil_r in E. apply (mock_log_other c s h fs rest I E). right; exact Hm.
Qed.

Lemma Inv_real_terminal c s s' x o p :
  Inv c s -> xhr_req s = Some x -> x_active x = true ->
  sess_step (SRunning false (session_files s) (uploadProgress s)) (EvTerminal o p) = Some SFinished ->
  xhr_req s' = Some (deactivate x) -> isUploading s' = false -> abortController s' = None ->
  mock_loop s' = None -> session s' = session s ->
  log s' = log s ++ [(session s, EvTerminal o p)] ->
  Inv c s'.
Proof.
  intros I Ex Ea Hst Px Pu Pa Pm Ps Pl.
  destruct (active_facts c s x I Ex Ea) as (_&H1&Hm&_&_&_&_&_&Hexp).
  split.
  - intros y Ey Eya. rewrite Px in Ey; injection Ey as <-. discriminate.
  - intros h Eh; congruence.
  - intros i Ei; congruence.
  - intros Eu; congruence.
  - apply (log_append s s' (session s) _ (inv_log _ _ I) Pl).
    + apply expected_same_session; assumption.
    + rewrite Hexp. replace (expected s' (session s)) with SFinished; [exact Hst|].
      unfold expected. rewrite Ps, Nat.ltb_irrefl.
      replace (in_flight s') with false by (unfold in_flight, xhr_active, is_mock; rewrite Px, Pm; reflexivity).
      replace (Nat.eqb (session s) 0) with false by (symmetry; apply Nat.eqb_neq; lia). reflexivity.
  - intros h fs rest E. destruct (real_mock_log c s s' _ I Hexp Hm Pl h fs rest E). auto.
Qed.

Lemma terminal_ok fs last o : o <> OAborted ->
  sess_step (SRunning false fs last) (EvTerminal o last) = Some SFinished.
Proof. intro H; destruct o; simpl; rewrite ?progress_eqb_refl; try reflexivity; congruence. Qed.

Lemma onload_props status text parsed o k : onload_result status text parsed = (o, k) ->
  o <> OAborted /\ forall s, core (k s) = core s.
Proof.
  unfold onload_result. intro E.
  destruct (status =? 200)%Z.
  - destruct parsed as [[]|]; try (injection E as <- <-; split; [discriminate|reflexivity]);
    destruct (_ && _); injection E as <- <-; split; try discriminate; reflexivity.
  - injection E as <- <-; split; [discriminate|reflexivity].
Qed.

Lemma Inv_load c s x status text parsed :
  Inv c s -> xhr_req s = Some x -> x_active x = true -> Inv c (onload x status text parsed s).
Proof.
  intros I Ex Ea. destruct (active_facts c s x I Ex Ea) as (Hh&_&Hm&_).
  unfold onload. destruct (onload_result status text parsed) as [o k] eqn:Eo.
  destruct (onload_props _ _ _ _ _ Eo) as [Ho Hk].
  set (s1 := setAbortController None _).
  pose proof (Hk s1) as C. unfold core in C; simpl in C. injection C; intros.
  apply (Inv_real_terminal c s _ x o (uploadProgress s) I Ex Ea
           (terminal_ok (session_files s) (uploadProgress s) o Ho)); simpl; congruence.
Qed.

Lemma Inv_error c s x :
  Inv c s -> xhr_req s = Some x -> x_active x = true -> Inv c (onerror x s).
Proof.
  intros I Ex Ea. destruct (active_facts c s x I Ex Ea) as (Hh&_&Hm&_).
  apply (Inv_real_terminal c s _ x ONetworkError (uploadProgress s) I Ex Ea
           (terminal_ok (session_files s) (uploadProgress s) ONetworkError ltac:(discriminate)));
    simpl; congruence.
Qed.

Lemma Inv_abort c s x :
  Inv c s -> xhr_req s = Some x -> x_active x = true -> Inv c (onabort x s).
Proof.
  intros I Ex Ea. destruct (active_facts c s x I Ex Ea) as (Hh&_&Hm&_).
  apply (Inv_real_terminal c s _ x OAborted reset_progress I Ex Ea); simpl; try congruence.
Qed.

Lemma Inv_progress c s x loaded comp :
  Inv c s -> xhr_req s = Some x -> x_active x = true ->
  (x_loaded x <= loaded <= x_total x)%Z -> (0 < x_total x)%Z ->
  Inv c (onprogress x loaded comp s).
Proof.
  intros I Ex Ea Hl Ht.
  destruct (active_facts c s x I Ex Ea) as (Hh&H1&Hm&Hu&Ha&H0&Hb&Hfl&Hexp).
  set (x' := mkXhr (x_handle x) (x_active x) loaded (x_total x)).
  set (pc := pct loaded (x_total x)).
  set (prog := mkProgress pc (uniform (session_files s) pc)).
  assert (Hle : (overall (uploadProgress s) <= pc)%Z)
    by (specialize (Hb Ht); pose proof (pct_mono (x_loaded x) loaded (x_total x) Ht (proj1 Hl)); unfold pc; lia).
  assert (P : exists s', onprogress x loaded comp s = s' /\
    xhr_req s' = Some x' /\ session s' = session s /\ mock_loop s' = None /\
    isUploading s' = true /\ abortController s' = Some (x_handle x) /\
    session_files s' = session_files s /\
    ((log s' = log s /\ uploadProgress s' = uploadProgress s) \/
     (log s' = log s ++ [(session s, EvProgress prog)] /\ uploadProgress s' = prog))).
  { unfold onprogress; destruct comp; eexists; (split; [reflexivity|]); simpl;
      (split; [reflexivity|]); repeat (split; [solve [auto]|]).
    - right; rewrite Hh; split; reflexivity.
    - left; split; reflexivity. }
  destruct P as (s' & -> & Px & Ps & Pm & Pu & Pa & Pf & Plog).
  assert (Fl : in_flight s' = true) by (unfold in_flight, xhr_active; rewrite Px; simpl; rewrite Ea; reflexivity).
  assert (Hp' : (overall (uploadProgress s') <= pc)%Z) by (destruct Plog as [[_ ->]|[_ ->]]; simpl; lia).
  split.
  - intros y Ey Eya. rewrite Px in Ey; injection Ey as <-. simpl.
    rewrite Ps, Pm, Pu, Pa. repeat split; auto; lia.
  - intros h Eh. rewrite Pa in Eh; injection Eh as <-. exists x'; auto.
  - intros i Ei; congruence.
  - intros _; exact Fl.
  - assert (Eexp : forall h, h <> session s -> expected s' h = expected s h)
      by (apply expected_same_session; exact Ps).
    destruct Plog as [[Pl Pp]|[Pl Pp]].
    + intros h. rewrite Pl, (inv_log _ _ I h). f_equal.
      destruct (Nat.eq_dec h (session s)) as [->|Hne]; [|symmetry; apply Eexp; exact Hne].
      rewrite Hexp, <- Ps, expected_session by (rewrite ?Ps; assumption).
      unfold is_mock; rewrite Pm, Pf, Pp; reflexivity.
    + apply (log_append s s' (session s) _ (inv_log _ _ I) Pl Eexp).
      rewrite Hexp, <- Ps, expected_session by (rewrite ?Ps; assumption).
      unfold is_mock; rewrite Pm, Pf, Pp. simpl.
      replace (overall (uploadProgress s) <=? pc)%Z with true by (symmetry; apply Z.leb_le; exact Hle).
      unfold prog at 2; simpl. rewrite progress_eqb_refl. reflexivity.
  - intros h fs rest E. destruct Plog as [[Pl _]|[Pl _]].
    + rewrite Pl in E. destruct (mock_log_other c s h fs rest I E) as [Hne Ht']; [right; exact Hm|].
      split; [exact Hne|right; exact Ht'].
    + destruct (real_mock_log c s s' _ I Hexp Hm Pl h fs rest E). split; auto.
Qed.

Lemma mock_ticks_S fs n :
  mock_ticks fs (S n) = mock_ticks fs n ++ [EvProgress (tick fs (10 * Z.of_nat n))].
Proof. unfold mock_ticks; rewrite seq_S, map_app; reflexivity. Qed.

Lemma mock_trace_finished c fs st : sess_run (mock_trace c fs) = Some st -> st = SFinished.
Proof.
  unfold mock_trace, sess_run. rewrite app_comm_cons, sess_run_from_app.
  destruct (sess_run_from SFresh _); [apply terminal_finishes|discriminate].
Qed.

Lemma mock_running c s i : Inv c s -> mock_loop s = Some i ->
  expected s (session s) = SRunning true (session_files s) (uploadProgress s) /\
  exists n, (n <= 10)%nat /\ i = (10 * Z.of_nat n)%Z /\ session_files s <> [] /\
  entries (session s) (log s) = EvStart true (session_files s) :: mock_ticks (session_files s) n.
Proof.
  intros I Em. destruct (inv_mock _ _ I _ Em) as (Hu&Hx&Ha&H1&[n0 [Hn0 Hi]]&Hle).
  assert (Hexp : expected s (session s) = SRunning true (session_files s) (uploadProgress s)).
  { rewrite expected_session by (auto; unfold in_flight, is_mock; rewrite Em, orb_true_r; reflexivity).
    unfold is_mock; rewrite Em; reflexivity. }
  split; [exact Hexp|].
  destruct (running_entries c s _ _ _ _ I Hexp) as [r Er].
  destruct (inv_mock_log _ _ I _ _ _ Er) as [Hne [(_&_&n&Hm&Hr)|Ht]].
  - assert (Hm' : i = (10 * Z.of_nat n)%Z) by congruence. clear Hm. exists n. subst r.
    repeat split; try lia; assumption.
  - exfalso. pose proof (inv_log _ _ I (session s)) as L. rewrite Er, Ht, Hexp in L.
    apply mock_trace_finished in L; discriminate.
Qed.

Lemma Inv_mockTick c s : Inv c s -> Inv c (mockTick c s).
Proof.
  intros I. unfold mockTick. destruct (mock_loop s) as [i|] eqn:Em; [|exact I].
  destruct (inv_mock _ _ I _ Em) as (Hu&Hx&Ha&H1&_&Hle).
  destruct (mock_running c s i I Em) as [Hexp (n & Hn & Hi & Hne & Ent)].
  set (fs := session_files s) in *.
  set (prog := tick fs i).
  set (s1 := emit (session s) (EvProgress prog) (setUploadProgress prog s)).
  assert (Hstep : sess_step (SRunning true fs (uploadProgress s)) (EvProgress prog)
                  = Some (SRunning true fs prog)).
  { unfold prog, tick; simpl. replace (overall (uploadProgress s) <=? i)%Z with true
      by (symmetry; apply Z.leb_le; exact Hle).
    unfold progress_eqb; destruct progress_eq_dec as [_|C]; [reflexivity|congruence]. }
  assert (Hfl1 : in_flight s1 = true) by (unfold in_flight, is_mock; simpl; rewrite Em, orb_true_r; reflexivity).
  assert (L1 : forall h, sess_run (entries h (log s1)) = Some (expected s1 h)).
  { apply (log_append s s1 (session s) (EvProgress prog) (inv_log _ _ I) eq_refl).
    - apply expected_same_session; reflexivity.
    - rewrite Hexp. change (expected s1 (session s)) with (expected s1 (session s1)).
      rewrite expected_session by assumption. unfold is_mock; simpl; rewrite Em. exact Hstep. }
  assert (Hother : forall h fs' rest, entries h (log s) = EvStart true fs' :: rest -> h <> session s ->
                   fs' <> [] /\ (EvStart true fs' :: rest = mock_trace c fs')).
  { intros h fs' rest E D. apply (mock_log_other c s h fs' rest I E). left; exact D. }
  destruct (i + 10 <=? 100)%Z eqn:E10.
  - apply Z.leb_le in E10.
    set (s' := setMockLoop (Some (i + 10)%Z) s1).
    assert (Hx' : xhr_active s' = false) by exact Hx.
    split.
    + intros x Ex Ea. unfold xhr_active in Hx'. rewrite Ex, Ea in Hx'. discriminate.
    + intros h Eh. simpl in Eh. congruence.
    + intros i' Ei. simpl in Ei. injection Ei as <-. simpl. repeat split; auto.
      * exists (S n). split; [lia|]. change ((i + 10)%Z = (10 * Z.of_nat (S n))%Z); rewrite Nat2Z.inj_succ; lia.
      * simpl; lia.
    + intros _. unfold in_flight, is_mock; simpl. apply orb_true_r.
    + intros h. change (sess_run (entries h (log s1)) = Some (expected s' h)).
      rewrite (L1 h). f_equal. unfold expected, in_flight, is_mock; simpl.
      rewrite Em. reflexivity.
    + intros h fs' rest E. simpl in E. rewrite entries_app in E.
      destruct (Nat.eqb h (session s)) eqn:Eh.
      * apply Nat.eqb_eq in Eh; subst h. rewrite Ent in E. simpl in E.
        injection E as <- <-. split; [exact Hne|left].
        split; [reflexivity|]. split; [reflexivity|]. exists (S n). split.
        -- change (Some (i + 10)%Z = Some (10 * Z.of_nat (S n))%Z). f_equal. rewrite Nat2Z.inj_succ; lia.
        -- unfold prog; rewrite mock_ticks_S, Hi; reflexivity.
      * apply Nat.eqb_neq in Eh. rewrite app_nil_r in E.
        destruct (Hother h fs' rest E Eh). split; auto.
  - apply Z.leb_gt in E10.
    assert (n = 10%nat) by lia. subst n.
    assert (Hi100 : i = 100%Z) by (rewrite Hi; reflexivity).
    set (env := (fst c, js_or (snd c) (JStr EmptyString))).
    set (s' := emit (session s) (EvTerminal (OSuccess env) prog) _).
    assert (Hx' : xhr_active s' = false) by exact Hx.
    assert (Hfl' : in_flight s' = false) by (unfold in_flight, is_mock; rewrite Hx'; reflexivity).
    split.
    + intros x Ex Ea. unfold xhr_active in Hx'. rewrite Ex, Ea in Hx'. discriminate.
    + intros h Eh. simpl in Eh. congruence.
    + intros i' Ei. simpl in Ei. discriminate.
    + intros Eu. simpl in Eu. discriminate.
    + assert (Pl : log s' = log s1 ++ [(session s, EvTerminal (OSuccess env) prog)]) by reflexivity.
      apply (log_append s1 s' (session s) _ L1 Pl).
      * intros h' Hh'. apply expected_same_session; [reflexivity|exact Hh'].
      * change (session s) with (session s1) at 1.
        rewrite expected_session by assumption. unfold is_mock; simpl; rewrite Em.
        replace (expected s' (session s)) with SFinished.
        -- simpl. rewrite progress_eqb_refl. unfold prog, tick; simpl. rewrite Hi100; reflexivity.
        -- unfold expected. rewrite Hfl'. simpl. rewrite Nat.ltb_irrefl.
           replace (Nat.eqb (session s) 0) with false by (symmetry; apply Nat.eqb_neq; lia). reflexivity.
    + intros h fs' rest E. simpl in E. rewrite !entries_app in E.
      destruct (Nat.eqb h (session s)) eqn:Eh.
      * apply Nat.eqb_eq in Eh; subst h. rewrite Ent in E. simpl in E.
        injection E as <- <-. split; [exact Hne|right].
        unfold mock_trace. rewrite (mock_ticks_S fs 10). simpl.
        unfold prog; rewrite Hi100. reflexivity.
      * apply Nat.eqb_neq in Eh. rewrite !app_nil_r in E.
        destruct (Hother h fs' rest E Eh). split; auto.
Qed.

Lemma Inv_step c s e : Inv c s -> Inv c (step c s e).
Proof.
  intros I. destruct e; simpl.
  1-5: apply (Inv_core c s); [reflexivity|exact I].
  - destruct (canUpload s) eqn:Ec; [apply Inv_upload; assumption|exact I].
  - unfold handleCancelUpload. destruct (abortController s) as [h|]; [|exact I].
    destruct (xhr_req s) as [x|] eqn:Ex; [|exact I].
    destruct (x_active x && Nat.eqb (x_handle x) h) eqn:Ea; [|exact I].
    apply andb_prop in Ea as [Ea _]. apply Inv_abort; assumption.
  - destruct (xhr_req s) as [x|] eqn:Ex; [|exact I].
    destruct (x_active x && _ && _ && _) eqn:Ea; [|exact I].
    repeat rewrite andb_true_iff in Ea. destruct Ea as [[[Ea E1] E2] E3].
    apply Z.leb_le in E1; apply Z.leb_le in E2; apply Z.ltb_lt in E3.
    apply Inv_progress; auto.
  - destruct (xhr_req s) as [x|] eqn:Ex; [|exact I].
    destruct (x_active x) eqn:Ea; [apply Inv_load; assumption|exact I].
  - destruct (xhr_req s) as [x|] eqn:Ex; [|exact I].
    destruct (x_active x) eqn:Ea; [apply Inv_error; assumption|exact I].
  - apply Inv_mockTick; exact I.
Qed.

Lemma reachable_Inv c s : reachable c s -> Inv c s.
Proof. induction 1; [apply Inv_init|apply Inv_step; assumption]. Qed.

Lemma run_reachable c es : reachable c (run c es).
Proof.
  unfold run. cut (forall s, reachable c s -> reachable c (fold_left (step c) es s)).
  - intro H; apply H; constructor.
  - induction es as [|e es IH]; intros s Hs; simpl; [exact Hs|apply IH; constructor; exact Hs].
Qed.

Lemma entries_app_gen h l l' : entries h (l ++ l') = entries h l ++ entries h l'.
Proof. unfold entries; rewrite filter_app, map_app; reflexivity. Qed.

Lemma terminal_last st pre o p post st' :
  sess_run_from st (pre ++ EvTerminal o p :: post) = Some st' -> post = [].
Proof.
  rewrite sess_run_from_app_gen. destruct (sess_run_from st pre) as [st1|]; [|discriminate].
  cbn [sess_run_from]. destruct (sess_step st1 (EvTerminal o p)) as [st2|] eqn:E; [|discriminate].
  apply terminal_finishes in E; subst. intro H; apply finished_stuck in H; tauto.
Qed.

Lemma terminal_unique st pre o p post st' :
  sess_run_from st (pre ++ EvTerminal o p :: post) = Some st' ->
  post = [] /\ forall o' p', ~ In (EvTerminal o' p') pre.
Proof.
  intro H. split; [eapply terminal_last; eauto|].
  intros o' p' Hin. apply in_split in Hin as (pre1 & pre2 & ->).
  rewrite <- app_assoc in H. simpl in H. apply terminal_last in H.
  destruct pre2; discriminate.
Qed.

Lemma step_running_progress m fs q p st1 :
  sess_step (SRunning m fs q) (EvProgress p) = Some st1 ->
  st1 = SRunning m fs p /\ (overall q <= overall p)%Z /\
  p = mkProgress (overall p) (uniform fs (overall p)).
Proof.
  simpl. destruct (_ <=? _)%Z eqn:E1; simpl; [|discriminate].
  destruct (progress_eqb _ _) eqn:E2; [|discriminate].
  intro H; injection H as <-. apply Z.leb_le in E1. apply progress_eqb_eq in E2. auto.
Qed.

Lemma sorted_from r : forall m fs q st, sess_run_from (SRunning m fs q) r = Some st ->
  Sorted Z.le (overall q :: overalls r).
Proof.
  induction r as [|e r IH]; intros m fs q st H; [repeat constructor|].
  cbn [sess_run_from] in H.
  destruct (sess_step (SRunning m fs q) e) as [st1|] eqn:E; [|discriminate].
  destruct e as [m' fs'|p|o p].
  - discriminate.
  - apply step_running_progress in E as (-> & Hle & _).
    simpl. constructor; [apply (IH m fs p st H)|constructor; exact Hle].
  - apply terminal_finishes in E; subst. apply finished_stuck in H as [-> _].
    repeat constructor.
Qed.

Lemma uniform_from r : forall m fs q st p, sess_run_from (SRunning m fs q) r = Some st ->
  In (EvProgress p) r -> perFile p = uniform fs (overall p).
Proof.
  induction r as [|e r IH]; intros m fs q st p H Hin; [destruct Hin|].
  cbn [sess_run_from] in H.
  destruct (sess_step (SRunning m fs q) e) as [st1|] eqn:E; [|discriminate].
  destruct Hin as [He|Hin]; [subst e|].
  - apply step_running_progress in E as (_ & _ & Ep). rewrite Ep at 1. reflexivity.
  - destruct e as [m' fs'|p'|o p'].
    + discriminate.
    + apply step_running_progress in E as (-> & _ & _). eapply IH; eauto.
    + apply terminal_finishes in E; subst. apply finished_stuck in H as [-> _]. destruct Hin.
Qed.

Lemma final_from pre : forall m fs q o p st,
  sess_run_from (SRunning m fs q) (pre ++ [EvTerminal o p]) = Some st ->
  (o = OAborted -> m = false /\ p = reset_progress) /\
  (o <> OAborted -> p = last_progress_from q pre) /\
  (m = true -> (exists env, o = OSuccess env) /\ overall p = 100%Z).
Proof.
  induction pre as [|e pre IH]; intros m fs q o p st H.
  - cbn [app sess_run_from] in H. destruct (sess_step (SRunning m fs q) (EvTerminal o p)) as [st1|] eqn:E;
      [|discriminate]. clear H. simpl in E.
    destruct o; inv_opt;
      repeat match goal with
      | H : _ && _ = true |- _ => apply andb_prop in H as [? ?]
      | H : negb _ = true |- _ => apply negb_true_iff in H
      | H : progress_eqb _ _ = true |- _ => apply progress_eqb_eq in H
      | H : (_ =? _)%Z = true |- _ => apply Z.eqb_eq in H
      | H : _ || _ = true |- _ => apply orb_prop in H as [?|?]
      end; subst;
      repeat split; try discriminate; try congruence; eauto.
    all: try (intro; subst; discriminate).
  - cbn [app sess_run_from] in H.
    destruct (sess_step (SRunning m fs q) e) as [st1|] eqn:E; [|discriminate].
    destruct e as [m' fs'|p'|o' p'].
    + discriminate.
    + apply step_running_progress in E as (-> & _ & _). apply (IH m fs p' o p st H).
    + apply terminal_finishes in E; subst. apply finished_stuck in H as [Hn _].
      destruct pre; discriminate.
Qed.

Lemma mockTick_more c s i : mock_loop s = Some i -> (i + 10 <= 100)%Z ->
  mock_loop (mockTick c s) = Some (i + 10)%Z /\ session (mockTick c s) = session s /\
  session_files (mockTick c s) = session_files s.
Proof.
  intros Em Hi. unfold mockTick. rewrite Em.
  replace (i + 10 <=? 100)%Z with true by (symmetry; apply Z.leb_le; exact Hi). auto.
Qed.

Lemma mockTick_last c s : mock_loop s = Some 100%Z ->
  mock_loop (mockTick c s) = None /\
  exists extra, log (mockTick c s) = log s ++ extra.
Proof.
  intros Em. unfold mockTick. rewrite Em. simpl. split; [reflexivity|].
  eexists. rewrite <- app_assoc. reflexivity.
Qed.

Lemma mock_completes c k : forall s, Inv c s ->
  mock_loop s = Some (10 * Z.of_nat (10 - k))%Z -> (k <= 10)%nat ->
  entries (session s) (log (fold_left (step c) (repeat MockTick (S k)) s))
  = mock_trace c (session_files s).
Proof.
  induction k as [|k IH]; intros s I Em Hk.
  - simpl. simpl in Em.
    destruct (mock_running c s _ I Em) as [_ (n & Hn & Hi & Hne & Ent)].
    destruct (mockTick_last c s Em) as [Em' [extra Pl]].
    pose proof (Inv_mockTick c s I) as I'.
    assert (E : exists rest, entries (session s) (log (mockTick c s))
                  = EvStart true (session_files s) :: rest).
    { rewrite Pl, entries_app_gen, Ent. eexists; reflexivity. }
    destruct E as [rest E].
    destruct (inv_mock_log _ _ I' _ _ _ E) as [_ [(_ & _ & n' & Hm & _)|Ht]].
    + rewrite Em' in Hm; discriminate.
    + rewrite E; exact Ht.
  - cbn [repeat fold_left]. simpl step.
    assert (Hi : (10 * Z.of_nat (10 - S k) + 10 <= 100)%Z) by lia.
    destruct (mockTick_more c s _ Em Hi) as (Em' & Es & Ef).
    rewrite <- Es, <- Ef. apply IH; [apply Inv_mockTick; exact I| |lia].
    rewrite Em'. f_equal. lia.
Qed.

(** C3: on every reachable page, each upload session (handle) has at
    most one terminal outcome in its event log, and it is the session's
    last event; once the current session has delivered its terminal
    outcome, pressing Cancel leaves the whole page state unchanged. *)
Theorem C3_single_terminal (canned : jsval * jsval) (s : page) (Hr : reachable canned s) :
  (forall h pre o p post, entries h (log s) = pre ++ EvTerminal o p :: post ->
     post = [] /\ forall o' p', ~ In (EvTerminal o' p') pre) /\
  ((exists o p, In (EvTerminal o p) (entries (session s) (log s))) ->
     step canned s UCancel = s).
Proof.
  pose proof (reachable_Inv _ _ Hr) as I. split.
  - intros h pre o p post E. pose proof (inv_log _ _ I h) as L. rewrite E in L.
    exact (terminal_unique _ _ _ _ _ _ L).
  - intros (o & p & Hin). simpl. unfold handleCancelUpload.
    destruct (abortController s) as [h|] eqn:Ea; [|reflexivity].
    destruct (inv_ctl _ _ I _ Ea) as (x & Ex & Hact & <-).
    destruct (active_facts canned s x I Ex Hact) as (_&_&_&_&_&_&_&_&Hexp).
    apply in_split in Hin as (pre & post & E).
    pose proof (inv_log _ _ I (session s)) as L. rewrite E in L.
    unfold sess_run in L. rewrite sess_run_from_app_gen in L.
    destruct (sess_run_from SFresh pre) as [st1|]; [|discriminate].
    cbn [sess_run_from] in L.
    destruct (sess_step st1 (EvTerminal o p)) as [st2|] eqn:Est; [|discriminate].
    apply terminal_finishes in Est; subst.
    apply finished_stuck in L as [_ L]. rewrite Hexp in L. discriminate.
Qed.

(** C4 fails as stated: a real-mode upload cancelled after a 25 percent
    progress event delivers [Aborted] with the per-file map emptied (the
    staged file gets no entry, not 0), and a real-mode upload whose
    response arrives before any computable progress event ends in
    [Success] with overall progress 0, not 100. *)
Lemma C4_counterexample :
  let c := (JArr [JStr "R1"], JStr "why") in
  let s_abort := run c [UStage [sample_csv]; UUpload 2000; XhrProgress 500 true; UCancel] in
  let s_ok := run c [UStage [sample_csv]; UUpload 2000;
                     XhrLoad 200 EmptyString (Some (JObj [("recommendations", JArr [JStr "R1"])]))] in
  entries 1 (log s_abort) =
    [EvStart false (files (stg s_abort));
     EvProgress (mkProgress 25 (uniform (files (stg s_abort)) 25));
     EvTerminal OAborted reset_progress] /\
  files (stg s_abort) <> [] /\ perFile reset_progress = [] /\
  entries 1 (log s_ok) =
    [EvStart false (files (stg s_ok));
     EvTerminal (OSuccess (JArr [JStr "R1"], JStr EmptyString)) reset_progress] /\
  overall reset_progress <> 100%Z.
Proof. vm_compute. repeat split; discriminate. Qed.

(** C4 (as the code has it): on every reachable page, for every upload
    session, the overall percentages delivered never decrease; each
    delivered per-file map gives every staged file of the session the
    overall value; an [Aborted] outcome (real mode only) resets progress
    to overall 0 with an empty per-file map; any other outcome leaves the
    progress at the last delivered value (0 with an empty map if none);
    and a mock-mode session ends only in [Success] at exactly 100. *)
Theorem C4_progress_amended (canned : jsval * jsval) (s : page) (Hr : reachable canned s) :
  forall h,
  Sorted Z.le (overalls (entries h (log s))) /\
  (forall m fs rest p, entries h (log s) = EvStart m fs :: rest -> In (EvProgress p) rest ->
     perFile p = uniform fs (overall p)) /\
  (forall m fs pre o p, entries h (log s) = EvStart m fs :: pre ++ [EvTerminal o p] ->
     (o = OAborted -> m = false /\ p = reset_progress) /\
     (o <> OAborted -> p = last_progress_from reset_progress pre) /\
     (m = true -> (exists env, o = OSuccess env) /\ overall p = 100%Z)).
Proof.
  pose proof (reachable_Inv _ _ Hr) as I. intro h.
  pose proof (inv_log _ _ I h) as L. unfold sess_run in L.
  split; [|split].
  - destruct (entries h (log s)) as [|e r]; [constructor|].
    cbn [sess_run_from] in L.
    destruct (sess_step SFresh e) as [st1|] eqn:E; [|discriminate].
    destruct e; simpl in E; try discriminate. injection E as <-.
    apply sorted_from in L. simpl. inversion L; assumption.
  - intros m fs rest p E Hin. rewrite E in L. cbn [sess_run_from sess_step] in L.
    eapply uniform_from; eauto.
  - intros m fs pre o p E. rewrite E in L. cbn [sess_run_from sess_step] in L.
    eapply final_from; eauto.
Qed.

(** C5: the mock loop's progress values are 0, 10, ..., 100, each
    applied to every staged file; on every reachable page a mock-mode
    session was started on a non-empty staged set and its events are a
    prefix of [mock_trace] (start, the eleven ticks, then [Success] with
    the canned envelope), the whole of it once it has a terminal outcome;
    and starting a mock upload then letting the loop run eleven ticks
    delivers exactly [mock_trace]. *)
Theorem C5_mock_ticks (canned : jsval * jsval) (s : page) (Hr : reachable canned s) :
  (forall fs, overalls (mock_ticks fs 11) = [0; 10; 20; 30; 40; 50; 60; 70; 80; 90; 100]%Z /\
     forall p, In (EvProgress p) (mock_ticks fs 11) -> perFile p = uniform fs (overall p)) /\
  (forall h fs rest, entries h (log s) = EvStart true fs :: rest ->
     fs <> [] /\ (exists suffix, (EvStart true fs :: rest) ++ suffix = mock_trace canned fs) /\
     ((exists o p, In (EvTerminal o p) rest) -> EvStart true fs :: rest = mock_trace canned fs)) /\
  (forall b, mockMode s = true -> canUpload s = true ->
     let s1 := step canned s (UUpload b) in
     entries (session s1) (log (fold_left (step canned) (repeat MockTick 11) s1))
     = mock_trace canned (files (stg s))).
Proof.
  pose proof (reachable_Inv _ _ Hr) as I. split; [|split].
  - intro fs; split; [reflexivity|].
    intros p Hin. unfold mock_ticks in Hin. apply in_map_iff in Hin as (k & Ek & _).
    injection Ek as <-. reflexivity.
  - intros h fs rest E. destruct (inv_mock_log _ _ I _ _ _ E) as [Hne [(Hh & Hf & n & Hm & Hr')|Ht]].
    + split; [exact Hne|]. destruct (inv_mock _ _ I _ Hm) as (_&_&_&_&(n' & Hn' & Hnn)&_).
      assert (n = n') by lia. subst n' rest.
      split.
      * exists (map (fun k => EvProgress (tick fs (10 * Z.of_nat k))) (seq n (11 - n)) ++
          [EvTerminal (OSuccess (fst canned, js_or (snd canned) (JStr EmptyString))) (tick fs 100)]).
        unfold mock_trace, mock_ticks. replace 11%nat with (n + (11 - n))%nat at 2 by lia.
        rewrite seq_app, map_app. simpl. rewrite <- app_assoc. reflexivity.
      * intros (o & p & Hin). unfold mock_ticks in Hin. apply in_map_iff in Hin as (k & Ek & _). discriminate.
    + split; [exact Hne|]. split; [exists []; rewrite app_nil_r; exact Ht|]. intros _; exact Ht.
  - intros b Hm Hc s1.
    pose proof (Inv_step canned s (UUpload b) I) as I1. fold s1 in I1.
    assert (Em : mock_loop s1 = Some 0%Z) by (unfold s1; simpl; rewrite Hc; unfold handleUpload; rewrite Hm; reflexivity).
    assert (Ef : session_files s1 = files (stg s)) by (unfold s1; simpl; rewrite Hc; unfold handleUpload; rewrite Hm; reflexivity).
    rewrite <- Ef. apply (mock_completes canned 10 s1 I1); [exact Em|lia].
Qed.

(** C10: while a mock-mode loop runs, no abort controller exists,
    Cancel changes nothing, every other event leaves the loop, the log,
    the progress and the uploading flag untouched, no mock-mode session
    ever records [Aborted], and running the remaining ticks completes the
    session with exactly [mock_trace], which ends in [Success]. *)
Theorem C10_mock_uncancellable (canned : jsval * jsval) (s : page) (i : Z)
  (Hr : reachable canned s) (Hm : mock_loop s = Some i) :
  abortController s = None /\
  step canned s UCancel = s /\
  (forall e, e <> MockTick ->
     mock_loop (step canned s e) = mock_loop s /\ log (step canned s e) = log s /\
     uploadProgress (step canned s e) = uploadProgress s /\
     isUploading (step canned s e) = true) /\
  (forall h fs rest p, entries h (log s) = EvStart true fs :: rest ->
     ~ In (EvTerminal OAborted p) rest) /\
  (exists k, entries (session s) (log (fold_left (step canned) (repeat MockTick k) s))
             = mock_trace canned (session_files s)).
Proof.
  pose proof (reachable_Inv _ _ Hr) as I.
  destruct (inv_mock _ _ I _ Hm) as (Hu & Hx & Ha & H1 & (n & Hn & Hi) & _).
  assert (Hxr : forall x, xhr_req s = Some x -> x_active x = false).
  { intros x Ex. unfold xhr_active in Hx; rewrite Ex in Hx; exact Hx. }
  assert (Hc : step canned s UCancel = s) by (simpl; unfold handleCancelUpload; rewrite Ha; reflexivity).
  split; [exact Ha|]. split; [exact Hc|]. split; [|split].
  - intros e He. destruct e; simpl; try (repeat split; assumption).
    + unfold canUpload. rewrite Hu, andb_false_r. repeat split; assumption.
    + unfold handleCancelUpload; rewrite Ha; repeat split; assumption.
    + destruct (xhr_req s) as [x|] eqn:Ex; [rewrite (Hxr x eq_refl); simpl|]; repeat split; assumption.
    + destruct (xhr_req s) as [x|] eqn:Ex; [rewrite (Hxr x eq_refl); simpl|]; repeat split; assumption.
    + destruct (xhr_req s) as [x|] eqn:Ex; [rewrite (Hxr x eq_refl); simpl|]; repeat split; assumption.
    + congruence.
  - intros h fs rest p E Hin.
    destruct (inv_mock_log _ _ I _ _ _ E) as [_ [(_ & _ & n' & _ & ->)|Ht]].
    + unfold mock_ticks in Hin. apply in_map_iff in Hin as (k & Ek & _). discriminate.
    + assert (Hin' : In (EvTerminal OAborted p) (mock_trace canned fs))
        by (rewrite <- Ht; right; exact Hin).
      unfold mock_trace in Hin'. destruct Hin' as [Hin'|Hin']; [discriminate|].
      clear Hin. apply in_app_or in Hin' as [Hin|[Hin|[]]].
      * unfold mock_ticks in Hin. apply in_map_iff in Hin as (k & Ek & _). discriminate.
      * discriminate.
  - exists (S (10 - n)). apply mock_completes; [exact I| |lia].
    rewrite Hm, Hi. f_equal. lia.
Qed.

(** ** Error classification of completed requests *)

(** C9 fails as stated: [apiFetch] on a 500 response whose body does not
    parse surfaces ["API Error: 500 Internal Server Error"], not
    ["500 Internal Server Error"]; the upload request classifies a 201
    response as a server error; and the upload request ignores [detail],
    surfacing ["Server error occurred."] for a body [{detail: "bad"}]. *)
Lemma C9_counterexample :
  Api.apiFetch_response 500 "Internal Server Error" None
    = RErr "API Error: 500 Internal Server Error" /\
  Api.apiFetch_response 500 "Internal Server Error" None <> RErr "500 Internal Server Error" /\
  fst (onload_result 201 EmptyString (Some (JObj [("recommendations", JArr [JStr "R1"])])))
    = OServerError 201 "Server error occurred." /\
  fst (onload_result 422 EmptyString (Some (JObj [("detail", JStr "bad")])))
    = OServerError 422 "Server error occurred.".
Proof. vm_compute. repeat split; discriminate. Qed.

Lemma js_or_first_truthy (l : list jsval) (d : jsval) (i : nat) (m : jsval) :
  first_truthy_at l i m -> fold_right js_or d l = m.
Proof.
  revert i; induction l as [|x l IH]; intros [|i] (Hn & Ht & Hb); simpl in Hn.
  - discriminate.
  - discriminate.
  - injection Hn as ->. simpl. unfold js_or. rewrite Ht. reflexivity.
  - simpl. unfold js_or at 1. rewrite (Hb 0%nat x ltac:(lia) eq_refl).
    apply (IH i). split; [exact Hn|]. split; [exact Ht|].
    intros j w Hj Hw. apply (Hb (S j) w); [lia|exact Hw].
Qed.

Lemma js_or_all_falsy (l : list jsval) (d : jsval) :
  Forall (fun w => truthy w = false) l -> fold_right js_or d l = d.
Proof.
  induction 1 as [|x l Hx _ IH]; simpl; [reflexivity|]. unfold js_or at 1. rewrite Hx. exact IH.
Qed.

Lemma apiFetch_response_fields (status : Z) (statusText : string) (v : jsval) :
  Api.response_ok status = false -> v <> JNull ->
  Api.apiFetch_response status statusText (Some v)
  = RErr (js_String (fold_right js_or
      (JStr ("API Error: " ++ string_of_Z status ++ " " ++ statusText))
      (apiFetch_error_fields v))).
Proof.
  intros H Hv. unfold Api.apiFetch_response. rewrite H.
  destruct v; try reflexivity. congruence.
Qed.

Lemma onload_result_fields (status : Z) (text : string) (v : jsval) :
  status <> 200%Z -> v <> JNull ->
  fst (onload_result status text (Some v))
  = OServerError status
      (js_String (fold_right js_or (JStr "Server error occurred.") (upload_error_fields v))).
Proof.
  intros H Hv. unfold onload_result.
  replace (status =? 200)%Z with false by (symmetry; apply Z.eqb_neq; exact H).
  destruct v; try reflexivity. congruence.
Qed.

(** C9 (as the code has it): [apiFetch] resolves with the parsed body on
    a 2xx status.  On any other status it throws the first truthy value
    among [detail[0].msg], [detail] and [message] of the parsed body
    (as a string), falling back to ["API Error: <status> <statusText>"]
    when none is truthy or the body does not parse; a JSON [null] body
    makes it throw the [TypeError] of reading [detail] on [null].  The
    upload request treats only status 200 as a completion with data (a
    [Success] or a bad-response error) and every other status as a
    server error whose text is the first truthy value among [message] and
    [error] of the parsed body, else ["Server error occurred."]; when the
    body does not parse or is [null], it is the raw response text, else
    ["Server error occurred."]. *)
Theorem C9_error_text_amended :
  (forall status statusText v, Api.response_ok status = true ->
     Api.apiFetch_response status statusText (Some v) = ROk v) /\
  (forall status statusText v i m, Api.response_ok status = false -> v <> JNull ->
     first_truthy_at (apiFetch_error_fields v) i m ->
     Api.apiFetch_response status statusText (Some v) = RErr (js_String m)) /\
  (forall status statusText v, Api.response_ok status = false -> v <> JNull ->
     Forall (fun w => truthy w = false) (apiFetch_error_fields v) ->
     Api.apiFetch_response status statusText (Some v)
       = RErr ("API Error: " ++ string_of_Z status ++ " " ++ statusText)) /\
  (forall status statusText, Api.response_ok status = false ->
     Api.apiFetch_response status statusText None
       = RErr ("API Error: " ++ string_of_Z status ++ " " ++ statusText)) /\
  (forall status statusText, Api.response_ok status = false ->
     Api.apiFetch_response status statusText (Some JNull)
       = RErr "Cannot read properties of null (reading 'detail')") /\
  (forall text parsed,
     match fst (onload_result 200 text parsed) with
     | OSuccess _ | OBadResponse _ => True
     | _ => False
     end) /\
  (forall status text v i m, status <> 200%Z -> v <> JNull ->
     first_truthy_at (upload_error_fields v) i m ->
     fst (onload_result status text (Some v)) = OServerError status (js_String m)) /\
  (forall status text v, status <> 200%Z -> v <> JNull ->
     Forall (fun w => truthy w = false) (upload_error_fields v) ->
     fst (onload_result status text (Some v)) = OServerError status "Server error occurred.") /\
  (forall status text, status <> 200%Z -> text <> EmptyString ->
     fst (onload_result status text None) = OServerError status text /\
     fst (onload_result status text (Some JNull)) = OServerError status text) /\
  (forall status, status <> 200%Z ->
     fst (onload_result status EmptyString None) = OServerError status "Server error occurred.").
Proof.
  assert (Hne : forall status, status <> 200%Z -> (status =? 200)%Z = false)
    by (intros; apply Z.eqb_neq; assumption).
  refine (conj _ (conj _ (conj _ (conj _ (conj _ (conj _ (conj _ (conj _ (conj _ _))))))))).
  - intros status statusText v H. unfold Api.apiFetch_response. rewrite H. reflexivity.
  - intros status statusText v i m H Hv Hf. rewrite apiFetch_response_fields by assumption.
    rewrite (js_or_first_truthy _ _ i m Hf). reflexivity.
  - intros status statusText v H Hv Hf. rewrite apiFetch_response_fields by assumption.
    rewrite (js_or_all_falsy _ _ Hf). reflexivity.
  - intros status statusText H. unfold Api.apiFetch_response. rewrite H. reflexivity.
  - intros status statusText H. unfold Api.apiFetch_response. rewrite H. reflexivity.
  - intros text parsed. unfold onload_result. simpl.
    destruct parsed as [[]|]; simpl; try exact I;
      destruct (_ && _); exact I.
  - intros status text v i m H Hv Hf. rewrite onload_result_fields by assumption.
    rewrite (js_or_first_truthy _ _ i m Hf). reflexivity.
  - intros status text v H Hv Hf. rewrite onload_result_fields by assumption.
    rewrite (js_or_all_falsy _ _ Hf). reflexivity.
  - intros status text H Ht. unfold onload_result. rewrite (Hne _ H). simpl.
    unfold js_or, truthy. rewrite (proj2 (String.eqb_neq text EmptyString) Ht).
    split; reflexivity.
  - intros status H. unfold onload_result. rewrite (Hne _ H). reflexivity.
Qed.

(** ** Witnesses: each theorem's hypotheses hold at a concrete input *)

Lemma C1_witness :
  nth_error [[("_id", JStr "b1"); ("action", JStr "view")]] 0
    = Some [("_id", JStr "b1"); ("action", JStr "view")] /\
  truthy (get [("_id", JStr "b1"); ("action", JStr "view")] "_id") = true /\
  m_rows (Behaviour.handleUpdate [[("_id", JStr "b1"); ("action", JStr "view")]] 0
            [("action", JStr "purchase")] (RErr "boom"))
    = m_rows (Behaviour.handleUpdate [[("_id", JStr "b1"); ("action", JStr "view")]] 0
                [("action", JStr "purchase")] (ROk JNull)).
Proof.
  assert (Hn : nth_error [[("_id", JStr "b1"); ("action", JStr "view")]] 0
                 = Some [("_id", JStr "b1"); ("action", JStr "view")]) by reflexivity.
  assert (Ht : truthy (get [("_id", JStr "b1"); ("action", JStr "view")] "_id") = true)
    by reflexivity.
  split; [exact Hn|]. split; [exact Ht|].
  destruct (C1_failed_mutation_policy _ 0 _ [("action", JStr "purchase")] "boom" JNull Hn)
    as [Hb _].
  exact (proj1 (proj2 (Hb Ht))).
Defined.

Lemma C2_witness :
  nth_error [[("action", JStr "view")]] 0 = Some [("action", JStr "view")] /\
  truthy (get [("action", JStr "view")] "_id") = false /\
  m_sent (Behaviour.handleDelete [[("action", JStr "view")]] 0 (ROk JNull)) = [].
Proof.
  assert (Hn : nth_error [[("action", JStr "view")]] 0 = Some [("action", JStr "view")])
    by reflexivity.
  assert (Ht : truthy (get [("action", JStr "view")] "_id") = false) by reflexivity.
  split; [exact Hn|]. split; [exact Ht|].
  destruct (C2_missing_identity_fails_fast _ 0 _ [] (ROk JNull) Hn) as [Hf _].
  rewrite (proj2 (Hf Ht)). reflexivity.
Defined.

Lemma C3_witness :
  reachable (JArr [JStr "R1"], JStr "why")
    (run (JArr [JStr "R1"], JStr "why")
       [UStage [sample_csv]; UUpload 2000;
        XhrLoad 200 EmptyString (Some (JObj [("recommendations", JArr [JStr "R1"])]))]) /\
  step (JArr [JStr "R1"], JStr "why")
    (run (JArr [JStr "R1"], JStr "why")
       [UStage [sample_csv]; UUpload 2000;
        XhrLoad 200 EmptyString (Some (JObj [("recommendations", JArr [JStr "R1"])]))]) UCancel
  = run (JArr [JStr "R1"], JStr "why")
       [UStage [sample_csv]; UUpload 2000;
        XhrLoad 200 EmptyString (Some (JObj [("recommendations", JArr [JStr "R1"])]))].
Proof.
  pose proof (run_reachable (JArr [JStr "R1"], JStr "why")
       [UStage [sample_csv]; UUpload 2000;
        XhrLoad 200 EmptyString (Some (JObj [("recommendations", JArr [JStr "R1"])]))]) as Hr.
  split; [exact Hr|].
  apply (proj2 (C3_single_terminal _ _ Hr)).
  exists (OSuccess (JArr [JStr "R1"], JStr EmptyString)), reset_progress.
  vm_compute. right; left; reflexivity.
Defined.

Lemma C4_witness :
  reachable (JArr [JStr "R1"], JStr "why")
    (run (JArr [JStr "R1"], JStr "why")
       [UStage [sample_csv]; UUpload 2000; XhrProgress 500 true; XhrProgress 2000 true]) /\
  Sorted Z.le (overalls (entries 1 (log
    (run (JArr [JStr "R1"], JStr "why")
       [UStage [sample_csv]; UUpload 2000; XhrProgress 500 true; XhrProgress 2000 true])))).
Proof.
  pose proof (run_reachable (JArr [JStr "R1"], JStr "why")
       [UStage [sample_csv]; UUpload 2000; XhrProgress 500 true; XhrProgress 2000 true]) as Hr.
  split; [exact Hr|].
  exact (proj1 (C4_progress_amended _ _ Hr 1)).
Defined.

Lemma C5_witness :
  reachable (JArr [JStr "R1"], JStr "why")
    (run (JArr [JStr "R1"], JStr "why") [UStage [sample_csv]; UToggleMock true]) /\
  mockMode (run (JArr [JStr "R1"], JStr "why") [UStage [sample_csv]; UToggleMock true]) = true /\
  canUpload (run (JArr [JStr "R1"], JStr "why") [UStage [sample_csv]; UToggleMock true]) = true /\
  (let s1 := step (JArr [JStr "R1"], JStr "why")
               (run (JArr [JStr "R1"], JStr "why") [UStage [sample_csv]; UToggleMock true])
               (UUpload 0) in
   entries (session s1)
     (log (fold_left (step (JArr [JStr "R1"], JStr "why")) (repeat MockTick 11) s1))
   = mock_trace (JArr [JStr "R1"], JStr "why")
       (files (stg (run (JArr [JStr "R1"], JStr "why") [UStage [sample_csv]; UToggleMock true])))).
Proof.
  pose proof (run_reachable (JArr [JStr "R1"], JStr "why") [UStage [sample_csv]; UToggleMock true])
    as Hr.
  assert (Hm : mockMode (run (JArr [JStr "R1"], JStr "why") [UStage [sample_csv]; UToggleMock true])
               = true) by (vm_compute; reflexivity).
  assert (Hc : canUpload (run (JArr [JStr "R1"], JStr "why") [UStage [sample_csv]; UToggleMock true])
               = true) by (vm_compute; reflexivity).
  split; [exact Hr|]. split; [exact Hm|]. split; [exact Hc|].
  exact (proj2 (proj2 (C5_mock_ticks _ _ Hr)) 0%Z Hm Hc).
Defined.

Lemma C6_witness :
  get [("behaviors", JArr [JStr "b1"])] "behaviors" = JArr [JStr "b1"] /\
  Normalize.behaviorsList (JObj [("behaviors", JArr [JStr "b1"])]) = [JStr "b1"].
Proof.
  assert (H : get [("behaviors", JArr [JStr "b1"])] "behaviors" = JArr [JStr "b1"])
    by reflexivity.
  split; [exact H|].
  exact (proj1 C6_normalize_per_page _ _ H).
Defined.

Lemma C7_witness :
  existsb (fun f => negb (Stager.isCSV f))
    [{| Stager.ftype := "text/plain"; Stager.fname := "notes.txt"; Stager.fsize := 10%Z |}]
    = true /\
  Stager.error (Stager.handleFilesSelected
    {| Stager.files := []; Stager.error := EmptyString; Stager.pendingLargeFiles := [];
       Stager.showLargeFileWarning := false; Stager.nonce := 0 |}
    [{| Stager.ftype := "text/plain"; Stager.fname := "notes.txt"; Stager.fsize := 10%Z |}])
    = "Only CSV files are allowed".
Proof.
  assert (H : existsb (fun f => negb (Stager.isCSV f))
    [{| Stager.ftype := "text/plain"; Stager.fname := "notes.txt"; Stager.fsize := 10%Z |}]
    = true) by (vm_compute; reflexivity).
  split; [exact H|].
  exact (proj1 (proj2 (proj2 (C7_stage_small_csv
    {| Stager.files := []; Stager.error := EmptyString; Stager.pendingLargeFiles := [];
       Stager.showLargeFileWarning := false; Stager.nonce := 0 |} _))) H).
Defined.

Lemma C8_witness :
  In {| Stager.ftype := "text/csv"; Stager.fname := "big.csv"; Stager.fsize := 6000000%Z |}
     [{| Stager.ftype := "text/csv"; Stager.fname := "big.csv"; Stager.fsize := 6000000%Z |}] /\
  Stager.isCSV {| Stager.ftype := "text/csv"; Stager.fname := "big.csv"; Stager.fsize := 6000000%Z |}
    = true /\
  (Stager.MAX_FILE_SIZE < 6000000)%Z /\
  In {| Stager.ftype := "text/csv"; Stager.fname := "big.csv"; Stager.fsize := 6000000%Z |}
     (Stager.pendingLargeFiles (Stager.handleFilesSelected
       {| Stager.files := []; Stager.error := EmptyString; Stager.pendingLargeFiles := [];
          Stager.showLargeFileWarning := false; Stager.nonce := 0 |}
       [{| Stager.ftype := "text/csv"; Stager.fname := "big.csv"; Stager.fsize := 6000000%Z |}])).
Proof.
  assert (Hin : In {| Stager.ftype := "text/csv"; Stager.fname := "big.csv"; Stager.fsize := 6000000%Z |}
     [{| Stager.ftype := "text/csv"; Stager.fname := "big.csv"; Stager.fsize := 6000000%Z |}])
    by (simpl; left; reflexivity).
  assert (Hc : Stager.isCSV {| Stager.ftype := "text/csv"; Stager.fname := "big.csv";
                               Stager.fsize := 6000000%Z |} = true) by (vm_compute; reflexivity).
  assert (Hb : (Stager.MAX_FILE_SIZE < 6000000)%Z) by (unfold Stager.MAX_FILE_SIZE; lia).
  split; [exact Hin|]. split; [exact Hc|]. split; [exact Hb|].
  exact (proj1 (proj1 (C8_large_file_gate
    {| Stager.files := []; Stager.error := EmptyString; Stager.pendingLargeFiles := [];
       Stager.showLargeFileWarning := false; Stager.nonce := 0 |} _) _ Hin Hc Hb)).
Defined.

Lemma C9_witness :
  Api.response_ok 422 = false /\
  JObj [("detail", JArr [JObj [("msg", JStr "field required")]])] <> JNull /\
  first_truthy_at (apiFetch_error_fields
    (JObj [("detail", JArr [JObj [("msg", JStr "field required")]])])) 0 (JStr "field required") /\
  Api.apiFetch_response 422 "Unprocessable Entity"
    (Some (JObj [("detail", JArr [JObj [("msg", JStr "field required")]])]))
    = RErr "field required" /\
  fst (onload_result 500 "null" (Some JNull)) = OServerError 500 "null".
Proof.
  assert (H1 : Api.response_ok 422 = false) by reflexivity.
  assert (H2 : JObj [("detail", JArr [JObj [("msg", JStr "field required")]])] <> JNull)
    by discriminate.
  assert (H3 : first_truthy_at (apiFetch_error_fields
    (JObj [("detail", JArr [JObj [("msg", JStr "field required")]])])) 0 (JStr "field required")).
  { split; [reflexivity|]. split; [reflexivity|]. intros j w Hj. lia. }
  assert (H4 : (500 <> 200)%Z) by lia.
  assert (H5 : "null" <> EmptyString) by discriminate.
  split; [exact H1|]. split; [exact H2|]. split; [exact H3|]. split.
  - exact (proj1 (proj2 C9_error_text_amended) _ "Unprocessable Entity" _ _ _ H1 H2 H3).
  - destruct C9_error_text_amended as (_ & _ & _ & _ & _ & _ & _ & _ & H9 & _).
    exact (proj2 (H9 500%Z "null" H4 H5)).
Defined.

Lemma C10_witness :
  reachable (JArr [JStr "R1"], JStr "why")
    (run (JArr [JStr "R1"], JStr "why")
       [UStage [sample_csv]; UToggleMock true; UUpload 0; MockTick]) /\
  mock_loop (run (JArr [JStr "R1"], JStr "why")
       [UStage [sample_csv]; UToggleMock true; UUpload 0; MockTick]) = Some 10%Z /\
  step (JArr [JStr "R1"], JStr "why")
    (run (JArr [JStr "R1"], JStr "why")
       [UStage [sample_csv]; UToggleMock true; UUpload 0; MockTick]) UCancel
  = run (JArr [JStr "R1"], JStr "why")
       [UStage [sample_csv]; UToggleMock true; UUpload 0; MockTick].
Proof.
  pose proof (run_reachable (JArr [JStr "R1"], JStr "why")
       [UStage [sample_csv]; UToggleMock true; UUpload 0; MockTick]) as Hr.
  assert (Hm : mock_loop (run (JArr [JStr "R1"], JStr "why")
       [UStage [sample_csv]; UToggleMock true; UUpload 0; MockTick]) = Some 10%Z) by (vm_compute; reflexivity).
  split; [exact Hr|]. split; [exact Hm|].
  exact (proj1 (proj2 (C10_mock_uncancellable _ _ _ Hr Hm))).
Defined.

(** * Further properties of the code *)

(** ** Page navigation *)

Lemma range_from_length (s : Z) (n : nat) :
  length (Pagination.range_from s n) = n.
Proof. revert s; induction n; intros s; simpl; auto. Qed.

Lemma In_range_from (x s : Z) (n : nat) :
  In x (Pagination.range_from s n) <-> (s <= x < s + Z.of_nat n)%Z.
Proof.
  revert s; induction n as [|n IH]; intros s; simpl.
  - lia.
  - rewrite IH. lia.
Qed.

Lemma nth_error_range_from (s : Z) (n i : nat) :
  (i < n)%nat -> nth_error (Pagination.range_from s n) i = Some (s + Z.of_nat i)%Z.
Proof.
  revert s i; induction n as [|n IH]; intros s [|i] Hi; simpl; try lia.
  - f_equal; lia.
  - rewrite IH by lia. f_equal; lia.
Qed.

Lemma StronglySorted_app {A} (R : A -> A -> Prop) (l1 l2 : list A) :
  StronglySorted R l1 -> StronglySorted R l2 ->
  (forall a b, In a l1 -> In b l2 -> R a b) -> StronglySorted R (l1 ++ l2).
Proof.
  induction l1 as [|x l1 IH]; intros H1 H2 Hx; simpl; auto.
  inversion H1; subst. constructor.
  - apply IH; auto. intros a b Ha Hb; apply Hx; simpl; auto.
  - apply Forall_app; split; auto.
    apply Forall_forall; intros b Hb; apply Hx; simpl; auto.
Qed.

Lemma StronglySorted_range_from (s : Z) (n : nat) :
  StronglySorted Z.lt (Pagination.range_from s n).
Proof.
  revert s; induction n as [|n IH]; intros s; simpl; constructor; auto.
  apply Forall_forall; intros x Hx; apply In_range_from in Hx; lia.
Qed.

Lemma window_bounds (cur total : Z) :
  (1 <= fst (Pagination.window cur total))%Z /\ (snd (Pagination.window cur total) <= total)%Z.
Proof.
  unfold Pagination.window.
  destruct (Z.leb_spec cur 3), (Z.leb_spec (total - 2) cur); simpl; lia.
Qed.

Lemma window_in_range (cur total : Z) :
  (1 <= cur <= total)%Z ->
  (fst (Pagination.window cur total) <= cur <= snd (Pagination.window cur total))%Z /\
  (snd (Pagination.window cur total) - fst (Pagination.window cur total) + 1
   = Z.min 5 total)%Z.
Proof.
  intros H. unfold Pagination.window.
  destruct (Z.leb_spec cur 3), (Z.leb_spec (total - 2) cur); simpl; lia.
Qed.

Lemma window_shortcut (cur total : Z) :
  (1 < fst (Pagination.window cur total))%Z -> (1 < total)%Z.
Proof.
  unfold Pagination.window.
  destruct (Z.leb_spec cur 3), (Z.leb_spec (total - 2) cur); simpl; lia.
Qed.

Lemma pages_window (cur total : Z) :
  Pagination.pages cur total =
  Pagination.range_from (fst (Pagination.window cur total))
    (Z.to_nat (snd (Pagination.window cur total) - fst (Pagination.window cur total) + 1)).
Proof. unfold Pagination.pages. destruct (Pagination.window cur total); reflexivity. Qed.

Lemma buttons_window (cur total : Z) :
  Pagination.buttons cur total =
  (if (1 <? fst (Pagination.window cur total))%Z then [1%Z] else []) ++
  Pagination.pages cur total ++
  (if (snd (Pagination.window cur total) <? total)%Z then [total] else []).
Proof. unfold Pagination.buttons. destruct (Pagination.window cur total); reflexivity. Qed.

Lemma In_pages (cur total p : Z) :
  In p (Pagination.pages cur total) <->
  (fst (Pagination.window cur total) <= p <= snd (Pagination.window cur total))%Z.
Proof. rewrite pages_window, In_range_from. lia. Qed.

Lemma In_buttons (cur total p : Z) :
  In p (Pagination.buttons cur total) ->
  p = 1%Z \/ In p (Pagination.pages cur total) \/ p = total.
Proof.
  rewrite buttons_window. intros H.
  apply in_app_or in H as [H|H]; [destruct (1 <? _)%Z; simpl in H; intuition|].
  apply in_app_or in H as [H|H]; [auto|].
  destruct (_ <? total)%Z; simpl in H; intuition.
Qed.

(** X1: On any page 1 <= currentPage <= totalPages, the Pagination component's window of numbered
    buttons holds min(5, totalPages) consecutive page numbers, all within 1..totalPages,
    and always includes the current page. *)
Theorem pagination_window_shape (currentPage totalPages : Z) :
  (1 <= currentPage <= totalPages)%Z ->
  let ps := Pagination.pages currentPage totalPages in
  length ps = Z.to_nat (Z.min 5 totalPages) /\
  In currentPage ps /\
  (forall p, In p ps -> 1 <= p <= totalPages)%Z /\
  (forall i p q, nth_error ps i = Some p -> nth_error ps (S i) = Some q -> q = p + 1)%Z.
Proof.
  intros H ps. subst ps.
  pose proof (window_bounds currentPage totalPages) as [B1 B2].
  pose proof (window_in_range currentPage totalPages H) as [[I1 I2] L].
  rewrite pages_window.
  set (s := fst (Pagination.window currentPage totalPages)) in *.
  set (e := snd (Pagination.window currentPage totalPages)) in *.
  split; [rewrite range_from_length, L; reflexivity|].
  split; [apply In_range_from; lia|].
  split; [intros p Hp; apply In_range_from in Hp; lia|].
  intros i p q Hp Hq.
  assert (Hi : (S i < Z.to_nat (e - s + 1))%nat).
  { rewrite <- (range_from_length s (Z.to_nat (e - s + 1))).
    apply nth_error_Some. rewrite Hq. discriminate. }
  rewrite nth_error_range_from in Hp, Hq by lia.
  injection Hp; injection Hq; intros; subst; lia.
Qed.

(** X2: The page buttons the Pagination component renders (the first-page shortcut, the window and
    the last-page shortcut) are strictly increasing, so no page number is rendered twice; on a
    valid current page both page 1 and the last page are among them. *)
Theorem pagination_buttons_increasing (currentPage totalPages : Z) :
  Sorted Z.lt (Pagination.buttons currentPage totalPages) /\
  ((1 <= currentPage <= totalPages)%Z ->
   In 1%Z (Pagination.buttons currentPage totalPages) /\
   In totalPages (Pagination.buttons currentPage totalPages)).
Proof.
  pose proof (window_bounds currentPage totalPages) as [B1 B2].
  pose proof (window_shortcut currentPage totalPages) as Sh.
  pose proof (In_pages currentPage totalPages) as Ip.
  rewrite buttons_window.
  set (s := fst (Pagination.window currentPage totalPages)) in *.
  set (e := snd (Pagination.window currentPage totalPages)) in *.
  split.
  - apply StronglySorted_Sorted.
    apply StronglySorted_app; [| apply StronglySorted_app | ].
    + destruct (1 <? s)%Z; repeat constructor.
    + rewrite pages_window. apply StronglySorted_range_from.
    + destruct (e <? totalPages)%Z; repeat constructor.
    + intros a b Ha Hb. apply Ip in Ha.
      destruct (Z.ltb_spec e totalPages); simpl in Hb; [|contradiction].
      destruct Hb as [<-|[]]; lia.
    + intros a b Ha Hb.
      destruct (Z.ltb_spec 1 s); simpl in Ha; [|contradiction].
      destruct Ha as [<-|[]]. specialize (Sh ltac:(lia)).
      apply in_app_or in Hb as [Hb|Hb]; [apply Ip in Hb; lia|].
      destruct (e <? totalPages)%Z; simpl in Hb; [|contradiction].
      destruct Hb as [<-|[]]; lia.
  - intros H. pose proof (window_in_range currentPage totalPages H) as [[I1 I2] _].
    fold s e in I1, I2.
    split.
    + destruct (Z.ltb_spec 1 s); [left; reflexivity|].
      apply in_or_app; right; apply in_or_app; left; apply Ip; lia.
    + apply in_or_app; right; apply in_or_app.
      destruct (Z.ltb_spec e totalPages); [right; left; reflexivity|].
      left; apply Ip; lia.
Qed.

Lemma clickTarget_bounds (currentPage totalPages : Z) (c : Pagination.control) (p : Z) :
  (1 <= currentPage <= totalPages)%Z ->
  Pagination.clickTarget currentPage totalPages c = Some p ->
  (1 <= p <= totalPages)%Z.
Proof.
  intros H Hc. pose proof (window_bounds currentPage totalPages) as [B1 B2].
  destruct c as [| |q]; simpl in Hc.
  - destruct (Z.eqb_spec currentPage 1); [discriminate|]. injection Hc; intros; lia.
  - destruct (Z.eqb_spec currentPage totalPages); [discriminate|]. injection Hc; intros; lia.
  - destruct (existsb (Z.eqb q) _) eqn:E; [|discriminate]. injection Hc as <-.
    apply existsb_exists in E as [x [Hx Ex]]. apply Z.eqb_eq in Ex; subst x.
    apply In_buttons in Hx as [->|[Hx| ->]]; [lia| |lia].
    apply In_pages in Hx; lia.
Qed.

(** X3: From a valid current page, every enabled Pagination control (Prev, Next or a page button)
    requests a page within 1..totalPages. *)
Theorem pagination_clicks_in_range (currentPage totalPages : Z) (c : Pagination.control) (p : Z) :
  (1 <= currentPage <= totalPages)%Z ->
  Pagination.clickTarget currentPage totalPages c = Some p ->
  (1 <= p <= totalPages)%Z.
Proof. apply clickTarget_bounds. Qed.

(** ** Sorting and slicing *)

Lemma insert_by_perm {A} (cmp : A -> A -> Z) (x : A) (l : list A) :
  Permutation (insert_by cmp x l) (x :: l).
Proof.
  induction l as [|y l IH]; simpl; auto.
  destruct (cmp x y <=? 0)%Z; auto.
  rewrite IH. apply perm_swap.
Qed.

Lemma sort_by_perm {A} (cmp : A -> A -> Z) (l : list A) :
  Permutation (sort_by cmp l) l.
Proof.
  induction l as [|x l IH]; simpl; auto.
  rewrite insert_by_perm. auto.
Qed.

Lemma sort_by_length {A} (cmp : A -> A -> Z) (l : list A) :
  length (sort_by cmp l) = length l.
Proof. apply Permutation_length, sort_by_perm. Qed.

Section SortKey.
Context {A : Type} (cmp : A -> A -> Z) (f : A -> Z).
Hypothesis Hcmp : forall a b, cmp a b = (f a - f b)%Z.

Let R (a b : A) : Prop := (f a <= f b)%Z.

Lemma insert_by_HdRel (a x : A) (l : list A) :
  HdRel R a l -> R a x -> HdRel R a (insert_by cmp x l).
Proof.
  intros H Hx. destruct l as [|y l]; simpl; [constructor; auto|].
  destruct (cmp x y <=? 0)%Z; constructor; auto. inversion H; auto.
Qed.

Lemma insert_by_sorted (x : A) (l : list A) :
  Sorted R l -> Sorted R (insert_by cmp x l).
Proof.
  induction l as [|y l IH]; intros H; simpl; [repeat constructor|].
  rewrite Hcmp. destruct (Z.leb_spec (f x - f y) 0).
  - constructor; auto. constructor. unfold R; lia.
  - inversion H; subst. constructor; auto.
    apply insert_by_HdRel; auto. unfold R; lia.
Qed.

Lemma sort_by_sorted (l : list A) : Sorted R (sort_by cmp l).
Proof. induction l; simpl; auto using insert_by_sorted. Qed.

Lemma sort_by_strongly_sorted (l : list A) : StronglySorted R (sort_by cmp l).
Proof.
  apply Sorted_StronglySorted; [unfold Relations_1.Transitive, R; intros; lia|].
  apply sort_by_sorted.
Qed.

End SortKey.

Lemma StronglySorted_app_cross {A} (R : A -> A -> Prop) (l1 l2 : list A) a b :
  StronglySorted R (l1 ++ l2) -> In a l1 -> In b l2 -> R a b.
Proof.
  induction l1 as [|x l1 IH]; simpl; [tauto|].
  intros H [<-|Ha] Hb; inversion H; subst.
  - eapply Forall_forall; eauto. apply in_or_app; auto.
  - auto.
Qed.

Lemma firstn_min_length {A} (k : nat) (l : list A) :
  firstn (Nat.min k (length l)) l = firstn k l.
Proof.
  revert l; induction k as [|k IH]; intros [|x l]; simpl; auto.
  rewrite IH. reflexivity.
Qed.

Lemma js_slice_from_zero {A} (l : list A) (n : Z) :
  (0 <= n)%Z -> js_slice l 0 n = firstn (Z.to_nat n) l.
Proof.
  intros Hn. unfold js_slice. simpl.
  destruct (Z.ltb_spec n 0); [lia|].
  replace (Z.to_nat (Z.min n (Z.of_nat (length l)) - Z.min 0 (Z.of_nat (length l))))
    with (Nat.min (Z.to_nat n) (length l)) by lia.
  replace (Z.to_nat (Z.min 0 (Z.of_nat (length l)))) with 0%nat by lia.
  apply firstn_min_length.
Qed.

Lemma js_slice_window {A} (l : list A) (a w : Z) :
  (0 <= a)%Z -> (0 <= w)%Z ->
  js_slice l a (a + w) = firstn (Z.to_nat w) (skipn (Z.to_nat a) l).
Proof.
  intros Ha Hw. unfold js_slice.
  destruct (Z.ltb_spec a 0); [lia|]. destruct (Z.ltb_spec (a + w) 0); [lia|].
  destruct (Z.leb_spec (Z.of_nat (length l)) a).
  - rewrite (skipn_all2 (n := Z.to_nat a)) by lia.
    rewrite !firstn_nil. rewrite skipn_all2 by lia. apply firstn_nil.
  - replace (Z.min a (Z.of_nat (length l))) with a by lia.
    replace (Z.to_nat (Z.min (a + w) (Z.of_nat (length l)) - a))
      with (Nat.min (Z.to_nat w) (length (skipn (Z.to_nat a) l)))
      by (rewrite length_skipn; lia).
    apply firstn_min_length.
Qed.

Lemma firstn_add {A} (a b : nat) (l : list A) :
  firstn (a + b) l = firstn a l ++ firstn b (skipn a l).
Proof.
  revert l; induction a as [|a IH]; intros [|x l]; simpl; auto.
  - rewrite firstn_nil. reflexivity.
  - rewrite IH. reflexivity.
Qed.

(** ** Results table *)


Lemma paginatedData_firstn {A} (l : list A) (p : Z) :
  (1 <= p)%Z ->
  RecTable.paginatedData l p = firstn 10 (skipn (Z.to_nat ((p - 1) * 10)) l).
Proof.
  intros Hp. unfold RecTable.paginatedData, RecTable.ROWS_PER_PAGE.
  rewrite js_slice_window by lia. reflexivity.
Qed.

Lemma pages_concat {A} (l : list A) (m k : nat) :
  concat (map (RecTable.paginatedData l) (Pagination.range_from (Z.of_nat k + 1) m))
  = firstn (10 * m) (skipn (10 * k) l).
Proof.
  revert k; induction m as [|m IH]; intros k;
    cbn [Pagination.range_from map concat]; [reflexivity|].
  rewrite paginatedData_firstn by lia.
  replace (Z.of_nat k + 1 + 1)%Z with (Z.of_nat (S k) + 1)%Z by lia.
  rewrite IH. replace (10 * S m)%nat with (10 + 10 * m)%nat by lia.
  rewrite firstn_add, skipn_skipn.
  replace (Z.to_nat ((Z.of_nat k + 1 - 1) * 10)) with (10 * k)%nat by lia.
  replace (10 + 10 * k)%nat with (10 * S k)%nat by lia. reflexivity.
Qed.

Lemma totalPages_cover (n : nat) :
  (Z.of_nat n <= 10 * RecTable.totalPages n)%Z /\ (0 <= RecTable.totalPages n)%Z /\
  (forall p, 1 <= p <= RecTable.totalPages n -> (p - 1) * 10 < Z.of_nat n)%Z.
Proof.
  unfold RecTable.totalPages, RecTable.ROWS_PER_PAGE.
  pose proof (Z.div_mod (Z.of_nat n + 10 - 1) 10 ltac:(lia)).
  pose proof (Z.mod_pos_bound (Z.of_nat n + 10 - 1) 10 ltac:(lia)).
  repeat split; try lia.
Qed.

Lemma paginatedData_length_le {A} (l : list A) (p : Z) :
  (length (RecTable.paginatedData l p) <= 10)%nat.
Proof.
  unfold RecTable.paginatedData, js_slice, RecTable.ROWS_PER_PAGE.
  rewrite length_firstn. set (len := Z.of_nat (length l)).
  destruct (Z.ltb_spec ((p - 1) * 10) 0), (Z.ltb_spec ((p - 1) * 10 + 10) 0); lia.
Qed.

Lemma paginatedData_beyond {A} (l : list A) (p : Z) :
  (RecTable.totalPages (length l) < p)%Z -> RecTable.paginatedData l p = [].
Proof.
  intros Hp. pose proof (totalPages_cover (length l)) as [C1 [C2 _]].
  rewrite paginatedData_firstn by lia.
  rewrite skipn_all2 by lia. apply firstn_nil.
Qed.

Lemma paginatedData_nonempty {A} (l : list A) (p : Z) :
  l <> [] -> (1 <= p)%Z -> (p = 1 \/ p <= RecTable.totalPages (length l))%Z ->
  RecTable.paginatedData l p <> [].
Proof.
  intros Hl Hp Hr. pose proof (totalPages_cover (length l)) as [C1 [C2 C3]].
  assert (Hlt : ((p - 1) * 10 < Z.of_nat (length l))%Z).
  { destruct Hr as [->|Hr]; [destruct l; [congruence|simpl; lia]|apply C3; lia]. }
  rewrite paginatedData_firstn by lia.
  destruct (skipn (Z.to_nat ((p - 1) * 10)) l) eqn:E; [|discriminate].
  apply (f_equal (@length A)) in E. rewrite length_skipn in E. simpl in E. lia.
Qed.

(** X4: The table's pages 1..totalPages, concatenated, give back the sorted rows exactly (no row is
    lost or repeated); a page holds at most ROWS_PER_PAGE = 10 rows, and a page past
    totalPages is empty. *)
Theorem table_pages_partition {A} (sorted : list A) :
  concat (map (RecTable.paginatedData sorted)
             (Pagination.range_from 1 (Z.to_nat (RecTable.totalPages (length sorted)))))
  = sorted /\
  (forall p, length (RecTable.paginatedData sorted p) <= 10)%nat /\
  (forall p, RecTable.totalPages (length sorted) < p -> RecTable.paginatedData sorted p = [])%Z.
Proof.
  split; [|split; [apply paginatedData_length_le|apply paginatedData_beyond]].
  pose proof (pages_concat sorted (Z.to_nat (RecTable.totalPages (length sorted))) 0) as H.
  simpl in H. rewrite H. apply firstn_all2.
  pose proof (totalPages_cover (length sorted)) as [C1 [C2 _]]. lia.
Qed.

Lemma sortedData_length (sc : RecTable.SortConfig) (l : list RecTable.recommendation) :
  length (RecTable.sortedData sc l) = length l.
Proof. unfold RecTable.sortedData. destruct (RecTable.field sc); auto using sort_by_length. Qed.

Lemma tstep_page_ok (recs : list RecTable.recommendation) (t : RecTable.rtable) (e : RecTable.tevent) :
  (1 <= RecTable.currentPage t /\
   (RecTable.currentPage t = 1 \/ RecTable.currentPage t <= RecTable.totalPages (length (RecTable.rows recs t))))%Z ->
  let t' := RecTable.tstep recs t e in
  (1 <= RecTable.currentPage t' /\
   (RecTable.currentPage t' = 1 \/ RecTable.currentPage t' <= RecTable.totalPages (length (RecTable.rows recs t'))))%Z.
Proof.
  intros [H1 H2]. destruct e as [q|v|f|c]; cbn zeta.
  - simpl. lia.
  - simpl. lia.
  - unfold RecTable.tstep, RecTable.rows, RecTable.setSortConfig; cbn [RecTable.currentPage RecTable.sortConfig
      RecTable.searchQuery RecTable.topNFilter].
    unfold RecTable.rows in H2. rewrite sortedData_length. rewrite sortedData_length in H2. auto.
  - unfold RecTable.tstep.
    destruct (Z.ltb_spec 1 (RecTable.totalPages (length (RecTable.rows recs t)))) as [Hlt|]; [|auto].
    destruct (Pagination.clickTarget _ _ c) as [p|] eqn:Ec; [|auto].
    assert (Hr : RecTable.rows recs (RecTable.setCurrentPage p t) = RecTable.rows recs t) by reflexivity.
    apply clickTarget_bounds in Ec; [|lia].
    unfold RecTable.setCurrentPage at 1 3; cbn [RecTable.currentPage]. rewrite Hr. lia.
Qed.

Lemma trun_page_ok (recs : list RecTable.recommendation) (es : list RecTable.tevent) (t : RecTable.rtable) :
  (1 <= RecTable.currentPage t /\
   (RecTable.currentPage t = 1 \/ RecTable.currentPage t <= RecTable.totalPages (length (RecTable.rows recs t))))%Z ->
  let t' := fold_left (RecTable.tstep recs) es t in
  (1 <= RecTable.currentPage t' /\
   (RecTable.currentPage t' = 1 \/ RecTable.currentPage t' <= RecTable.totalPages (length (RecTable.rows recs t'))))%Z.
Proof.
  revert t; induction es as [|e es IH]; intros t H; simpl; auto.
  apply IH. apply tstep_page_ok. exact H.
Qed.

(** X5: Whatever sequence of search, top-N, sort and page events the recommendations table
    receives, its current page stays >= 1, and whenever some rows match, the displayed
    page is not empty (every event that can shrink the rows resets the page to 1). *)
Theorem table_page_never_blank (recommendations : list RecTable.recommendation) (es : list RecTable.tevent) :
  let t := RecTable.trun recommendations es in
  (1 <= RecTable.currentPage t)%Z /\
  (RecTable.rows recommendations t <> [] ->
   RecTable.paginatedData (RecTable.rows recommendations t) (RecTable.currentPage t) <> []).
Proof.
  intros t.
  assert (H : (1 <= RecTable.currentPage t /\
     (RecTable.currentPage t = 1 \/
      RecTable.currentPage t <= RecTable.totalPages (length (RecTable.rows recommendations t))))%Z).
  { apply trun_page_ok. simpl. lia. }
  split; [tauto|]. intros Hne. apply paginatedData_nonempty; tauto.
Qed.

Lemma Sorted_mono {A} (R R' : A -> A -> Prop) (l : list A) :
  (forall a b, R a b -> R' a b) -> Sorted R l -> Sorted R' l.
Proof.
  intros HR H. induction H as [|a l Hs IH Hd]; constructor; auto.
  destruct Hd; constructor; auto.
Qed.

(** X6: With a numeric top-N filter n >= 0, the table keeps min(n, #recommendations) rows, each
    with an overall score at least that of every dropped recommendation; the search only
    narrows this top-N set further. *)
Theorem table_topN_keeps_best (recommendations : list RecTable.recommendation)
  (searchQuery topNFilter : string) (n : Z) :
  topNFilter <> "all" -> js_parseInt10 topNFilter = Some n -> (0 <= n)%Z ->
  let top := RecTable.filteredData recommendations EmptyString topNFilter in
  length top = Nat.min (Z.to_nat n) (length recommendations) /\
  (exists dropped, Permutation recommendations (top ++ dropped) /\
     forall k d, In k top -> In d dropped -> (RecTable.overall_score d <= RecTable.overall_score k)%Z) /\
  incl (RecTable.filteredData recommendations searchQuery topNFilter) top.
Proof.
  intros Hall Hn Hpos top.
  set (cmp := fun a b : RecTable.recommendation => (RecTable.overall_score b - RecTable.overall_score a)%Z).
  set (sorted := sort_by cmp recommendations).
  assert (Htop : top = firstn (Z.to_nat n) sorted).
  { subst top. unfold RecTable.filteredData.
    rewrite (proj2 (String.eqb_neq _ _) Hall), Hn. simpl.
    apply js_slice_from_zero; exact Hpos. }
  split; [rewrite Htop, length_firstn; unfold sorted; rewrite sort_by_length; lia|].
  split.
  - exists (skipn (Z.to_nat n) sorted). split.
    + rewrite Htop, firstn_skipn. apply Permutation_sym, sort_by_perm.
    + intros k d Hk Hd. rewrite Htop in Hk.
      assert (Hs : StronglySorted (fun a b => (- RecTable.overall_score a <= - RecTable.overall_score b)%Z)
                     (firstn (Z.to_nat n) sorted ++ skipn (Z.to_nat n) sorted)).
      { rewrite firstn_skipn. apply sort_by_strongly_sorted.
        intros a b; unfold cmp; lia. }
      pose proof (StronglySorted_app_cross _ _ _ k d Hs Hk Hd) as Hkd. cbv beta in Hkd. lia.
  - rewrite Htop. unfold sorted, cmp. unfold RecTable.filteredData.
    rewrite (proj2 (String.eqb_neq _ _) Hall), Hn. cbn [negb].
    rewrite js_slice_from_zero by exact Hpos.
    destruct (negb _); [|apply incl_refl].
    intros x Hx. apply filter_In in Hx. tauto.
Qed.

(** X7: Sorting the table by a column permutes the rows and orders them by that column,
    ascending or descending according to the direction. *)
Theorem table_sort_orders (f : RecTable.SortField) (d : RecTable.direction) (l : list RecTable.recommendation) :
  let s := RecTable.sortedData {| RecTable.field := Some f; RecTable.dir := d |} l in
  Permutation s l /\
  Sorted (fun a b => match d with
                     | RecTable.Asc => RecTable.field_value f a <= RecTable.field_value f b
                     | RecTable.Desc => RecTable.field_value f b <= RecTable.field_value f a
                     end)%Z s.
Proof.
  intros s. split; [apply sort_by_perm|].
  unfold s, RecTable.sortedData; cbn [RecTable.field RecTable.dir]. destruct d.
  - apply (sort_by_sorted _ (RecTable.field_value f)). intros; reflexivity.
  - eapply Sorted_mono; [|apply (sort_by_sorted _ (fun a => - RecTable.field_value f a)%Z)].
    + intros a b H; cbv beta in H; lia.
    + intros; lia.
Qed.

(** X8: Clicking a column header sorts by that column; clicking it again flips the direction,
    and clicking a header other than the current sort column starts in ascending order. *)
Theorem table_sort_toggle (f : RecTable.SortField) (sc : RecTable.SortConfig) :
  let s1 := RecTable.handleSort f sc in
  RecTable.field s1 = Some f /\
  RecTable.dir (RecTable.handleSort f s1) = match RecTable.dir s1 with RecTable.Asc => RecTable.Desc | RecTable.Desc => RecTable.Asc end /\
  (RecTable.field sc <> Some f -> RecTable.dir s1 = RecTable.Asc).
Proof.
  destruct sc as [[g|] d]; destruct f; try destruct g; destruct d; cbv;
    repeat split; intros; try reflexivity; exfalso; auto.
Qed.

Lemma split_aux_props (sep : ascii) (s : string) :
  let '(seg, segs) := split_aux sep s in
  flat_map list_ascii_of_string (seg :: segs) =
    filter (fun c => negb (Ascii.eqb c sep)) (list_ascii_of_string s) /\
  Forall (fun x => ~ In sep (list_ascii_of_string x)) (seg :: segs).
Proof.
  induction s as [|c r IH]; simpl.
  - split; [reflexivity|repeat constructor; simpl; tauto].
  - destruct (split_aux sep r) as [seg segs]. destruct IH as [IH1 IH2].
    destruct (Ascii.eqb_spec c sep) as [->|Hc]; simpl.
    + split; [exact IH1|]. constructor; [simpl; tauto|exact IH2].
    + simpl in IH1. rewrite <- IH1. split; [reflexivity|].
      inversion IH2; subst. constructor; auto. simpl. intros [?|?]; auto.
Qed.

Lemma flat_map_filter_nonempty (l : list string) :
  flat_map list_ascii_of_string (filter (fun seg => negb (String.eqb seg EmptyString)) l)
  = flat_map list_ascii_of_string l.
Proof.
  induction l as [|x l IH]; simpl; auto.
  destruct x; simpl; rewrite IH; reflexivity.
Qed.

Lemma trim_start_spec (s : string) :
  exists pre, s = (pre ++ trim_start s)%string /\
    Forall (fun c => is_space c = true) (list_ascii_of_string pre) /\
    match trim_start s with EmptyString => True | String c _ => is_space c = false end.
Proof.
  induction s as [|c r IH]; simpl.
  - exists EmptyString. repeat constructor.
  - destruct (is_space c) eqn:Ec.
    + destruct IH as (pre & E & Hp & Hh). exists (String c pre).
      simpl. rewrite <- E. repeat constructor; auto.
    + exists EmptyString. simpl. repeat constructor. exact Ec.
Qed.

Lemma trim_end_spec (s : string) :
  exists suf, s = (trim_end s ++ suf)%string /\
    Forall (fun c => is_space c = true) (list_ascii_of_string suf) /\
    match rev (list_ascii_of_string (trim_end s)) with [] => True | c :: _ => is_space c = false end /\
    match s with
    | String c _ => is_space c = false -> exists r, trim_end s = String c r
    | EmptyString => trim_end s = EmptyString
    end.
Proof.
  induction s as [|c r IH]; simpl.
  - exists EmptyString. repeat constructor.
  - destruct IH as (suf & E & Hs & Hl & _).
    destruct (is_space c && String.eqb (trim_end r) EmptyString) eqn:Ec.
    + apply andb_true_iff in Ec as [Ec Er]. apply String.eqb_eq in Er.
      exists (String c r). simpl. split; [reflexivity|]. split.
      * constructor; [exact Ec|]. rewrite E at 1. rewrite Er. exact Hs.
      * split; [exact I|]. intros H; congruence.
    + exists suf. simpl. rewrite <- E. split; [reflexivity|]. split; [exact Hs|].
      split; [|intros _; eexists; reflexivity].
      destruct (trim_end r) as [|c' r'] eqn:Er.
      * simpl. destruct (is_space c) eqn:Esp; [simpl in Ec; discriminate|first [reflexivity|exact Esp]].
      * simpl in Hl |- *.
        destruct (rev (list_ascii_of_string r') ++ [c']) as [|y ys] eqn:Eq;
          [destruct (rev (list_ascii_of_string r')); discriminate|].
        simpl. exact Hl.
Qed.

Lemma chars_app (a b : string) :
  list_ascii_of_string (a ++ b) = list_ascii_of_string a ++ list_ascii_of_string b.
Proof. induction a; simpl; [reflexivity|rewrite IHa; reflexivity]. Qed.

Lemma trim_spec (s : string) :
  exists pre suf, s = (pre ++ trim s ++ suf)%string /\
    Forall (fun c => is_space c = true)
      (list_ascii_of_string pre ++ list_ascii_of_string suf) /\
    match list_ascii_of_string (trim s) with [] => True | c :: _ => is_space c = false end /\
    match rev (list_ascii_of_string (trim s)) with [] => True | c :: _ => is_space c = false end.
Proof.
  destruct (trim_start_spec s) as (pre & E1 & Hp & Hh).
  destruct (trim_end_spec (trim_start s)) as (suf & E2 & Hs & Hl & Hf).
  exists pre, suf. unfold trim. split; [rewrite E1 at 1; rewrite E2 at 1; reflexivity|].
  split; [apply Forall_app; auto|]. split; [|exact Hl].
  destruct (trim_start s) as [|c r].
  - rewrite Hf. exact I.
  - destruct (Hf Hh) as [r' ->]. exact Hh.
Qed.

(** X9: The badges [renderFeatures] shows are the trimmed non-empty
    [';']-separated segments of the features string.  The segments contain
    no [';'] and together hold exactly the characters of the string other
    than [';'], in order.  Each badge is its segment without leading and
    trailing white space, so it starts and ends with a non-space character,
    and it is empty exactly when its segment is all white space. *)
Theorem features_badges (features : string) :
  Forall (fun seg => seg <> EmptyString /\ ~ In ";"%char (list_ascii_of_string seg))
    (RecTable.featureList features) /\
  flat_map list_ascii_of_string (RecTable.featureList features) =
    filter (fun c => negb (Ascii.eqb c ";"%char)) (list_ascii_of_string features) /\
  Forall2 (fun seg badge =>
      (exists pre suf, seg = (pre ++ badge ++ suf)%string /\
         Forall (fun c => is_space c = true)
           (list_ascii_of_string pre ++ list_ascii_of_string suf)) /\
      match list_ascii_of_string badge with [] => True | c :: _ => is_space c = false end /\
      match rev (list_ascii_of_string badge) with [] => True | c :: _ => is_space c = false end /\
      (badge = EmptyString <->
         Forall (fun c => is_space c = true) (list_ascii_of_string seg)))
    (RecTable.featureList features) (RecTable.renderFeatures features).
Proof.
  pose proof (split_aux_props ";"%char features) as H.
  unfold RecTable.renderFeatures, RecTable.featureList, split_on.
  destruct (split_aux ";"%char features) as [seg segs]. destruct H as [H1 H2].
  split; [|split].
  - apply Forall_forall. intros x Hx. apply filter_In in Hx as [Hx Hne].
    split; [intros ->; discriminate|]. eapply Forall_forall in H2; eauto.
  - rewrite flat_map_filter_nonempty. exact H1.
  - induction (filter _ (seg :: segs)) as [|x l IH]; simpl; constructor; [|exact IH].
    destruct (trim_spec x) as (pre & suf & E & Hsp & Hh & Hl).
    split; [exists pre, suf; split; assumption|]. split; [exact Hh|]. split; [exact Hl|].
    split.
    + intros He. rewrite E, He, !chars_app. simpl.
      exact Hsp.
    + intros Hall. destruct (trim x) as [|c r] eqn:Et; [reflexivity|].
      exfalso. rewrite E, !chars_app in Hall. simpl in Hall, Hh.
      apply Forall_app in Hall as [_ Hall]. inversion Hall; congruence.
Qed.

(** ** Editable data grid *)

Lemma cell_changes_state (cs : list (string * jsval)) (t : EditTable.etable) :
  let t' := fold_left (fun t kv => EditTable.handleCellChange (fst kv) (snd kv) t) cs t in
  EditTable.editingRow t' = EditTable.editingRow t /\
  EditTable.editedData t' = EditTable.editedData t ++ cs /\
  EditTable.searchQuery t' = EditTable.searchQuery t.
Proof.
  revert t; induction cs as [|[k v] cs IH]; intros t; simpl.
  - rewrite app_nil_r. auto.
  - destruct (IH (EditTable.handleCellChange k v t)) as [H1 [H2 H3]].
    simpl in H1, H2, H3. rewrite <- app_assoc in H2. auto.
Qed.

(** X10: Editing a row and saving hands the onUpdate callback the row index and the row with
    every cell change applied (a key takes its last edited value, untouched keys keep their
    values) and leaves editing mode; after cancelling, saving hands nothing. *)
Theorem edit_save_roundtrip (t : EditTable.etable) (i : nat) (row : obj)
  (cs : list (string * jsval)) :
  let t1 := fold_left (fun t kv => EditTable.handleCellChange (fst kv) (snd kv) t) cs
              (EditTable.startEditing i row t) in
  EditTable.saveEditing true t1 =
    ({| EditTable.editingRow := None; EditTable.editedData := [];
        EditTable.searchQuery := EditTable.searchQuery t |}, Some (i, row ++ cs)) /\
  (forall k, get (row ++ cs) k =
             match lookup_last k cs with Some v => v | None => get row k end) /\
  snd (EditTable.saveEditing true (EditTable.cancelEditing t1)) = None.
Proof.
  intros t1. destruct (cell_changes_state cs (EditTable.startEditing i row t)) as [H1 [H2 H3]].
  fold t1 in H1, H2, H3. simpl in H1, H2, H3.
  split; [|split].
  - unfold EditTable.saveEditing. rewrite H1, H2, H3. reflexivity.
  - intros k. unfold get. rewrite lookup_last_app. destruct (lookup_last k cs); reflexivity.
  - reflexivity.
Qed.





Import Endpoints.

(** ** Endpoints and uploads *)

(** X13: uploadFile answers exactly like apiFetch for the same response, except that the message of
    an HTTP error without a JSON detail starts with 'Upload Error: ' instead of 'API Error: '. *)
Theorem uploadFile_error_text (status : Z) (statusText : string) (body : option jsval) :
  uploadFile_response status statusText body = Api.apiFetch_response status statusText body \/
  (Api.apiFetch_response status statusText body
     = RErr ("API Error: " ++ string_of_Z status ++ " " ++ statusText) /\
   uploadFile_response status statusText body
     = RErr ("Upload Error: " ++ string_of_Z status ++ " " ++ statusText)).
Proof.
  unfold uploadFile_response, Api.apiFetch_response.
  destruct (Api.response_ok status); [left; reflexivity|].
  destruct (match body with Some v => v | None => JObj [] end) eqn:E;
    try (left; reflexivity);
    unfold js_or;
    repeat match goal with
           | |- context [if truthy ?x then _ else _] => destruct (truthy x)
           end; first [left; reflexivity | right; split; reflexivity].
Qed.

Lemma forall_ascii (P : ascii -> bool) :
  forallb P (map ascii_of_nat (seq 0 256)) = true -> forall c, P c = true.
Proof.
  intros H c. rewrite forallb_forall in H. apply H.
  rewrite <- (ascii_nat_embedding c). apply in_map, in_seq.
  pose proof (nat_ascii_bounded c). lia.
Qed.

Lemma list_ascii_of_string_app (a b : string) :
  list_ascii_of_string (a ++ b) = list_ascii_of_string a ++ list_ascii_of_string b.
Proof. induction a; simpl; [reflexivity|rewrite IHa; reflexivity]. Qed.

Lemma encode_char_chars (c : ascii) :
  Forall (fun x => (is_unreserved x = true \/ x = "%"%char \/
                    In x (list_ascii_of_string "0123456789ABCDEF")) /\
                   x <> "/"%char /\ x <> "?"%char /\ x <> "#"%char)
    (list_ascii_of_string (encode_char c)).
Proof.
  set (ok := fun x => (is_unreserved x || Ascii.eqb x "%"
                        || existsb (Ascii.eqb x) (list_ascii_of_string "0123456789ABCDEF"))
                       && negb (Ascii.eqb x "/") && negb (Ascii.eqb x "?")
                       && negb (Ascii.eqb x "#")).
  assert (H : forallb ok (list_ascii_of_string (encode_char c)) = true).
  { revert c. apply (forall_ascii (fun c => forallb ok (list_ascii_of_string (encode_char c)))).
    vm_compute. reflexivity. }
  rewrite forallb_forall in H. apply Forall_forall. intros x Hx. specialize (H x Hx).
  unfold ok in H. rewrite !andb_true_iff, !orb_true_iff, !negb_true_iff in H.
  destruct H as [[[H1 H2] H3] H4].
  repeat split.
  - destruct H1 as [[H1|H1]|H1]; [left; exact H1|right; left; apply Ascii.eqb_eq; exact H1|].
    right; right. apply existsb_exists in H1 as [y [Hy Ey]].
    apply Ascii.eqb_eq in Ey; subst y; exact Hy.
  - intros ->. discriminate.
  - intros ->. discriminate.
  - intros ->. discriminate.
Qed.


(** X14: encodeURIComponent only produces unreserved characters, '%' and upper-case hexadecimal
    digits, so an encoded id never contains '/', '?' or '#' and stays a single path segment. *)
Theorem encodeURIComponent_one_segment (s : string) :
  Forall (fun x => (is_unreserved x = true \/ x = "%"%char \/
                    In x (list_ascii_of_string "0123456789ABCDEF")) /\
                   x <> "/"%char /\ x <> "?"%char /\ x <> "#"%char)
    (list_ascii_of_string (encodeURIComponent s)).
Proof.
  induction s as [|c r IH]; simpl; [constructor|].
  rewrite list_ascii_of_string_app. apply Forall_app. split; auto using encode_char_chars.
Qed.

Lemma encode_char_no_slash (s : string) :
  ~ In "/"%char (list_ascii_of_string (encodeURIComponent s)).
Proof.
  intros H. induction s as [|c r IH]; simpl in H; [exact H|].
  rewrite list_ascii_of_string_app in H. apply in_app_or in H as [H|H]; auto.
  pose proof (encode_char_chars c) as Hc. rewrite Forall_forall in Hc.
  apply Hc in H. tauto.
Qed.

Lemma encode_char_shape (c : ascii) :
  exists h t, encode_char c = String h t /\
              String.length t = (if Ascii.eqb h "%" then 2 else 0)%nat.
Proof.
  pose (P := fun c => match encode_char c with
                      | String h t => Nat.eqb (String.length t)
                                        (if Ascii.eqb h "%" then 2 else 0)
                      | EmptyString => false
                      end).
  assert (H : P c = true) by (apply forall_ascii; vm_compute; reflexivity).
  unfold P in H. destruct (encode_char c) as [|h t]; [discriminate|].
  exists h, t. split; [reflexivity|]. apply Nat.eqb_eq, H.
Qed.

Lemma encode_char_inj (c d : ascii) : encode_char c = encode_char d -> c = d.
Proof.
  assert (H : forall c, (fun c => forallb (fun d =>
                 implb (String.eqb (encode_char c) (encode_char d)) (Ascii.eqb c d))
                 (map ascii_of_nat (seq 0 256))) c = true).
  { apply forall_ascii. vm_compute. reflexivity. }
  intros E. specialize (H c). cbv beta in H.
  pose proof (forall_ascii _ H d) as Hd. cbv beta in Hd.
  rewrite (proj2 (String.eqb_eq _ _) E) in Hd. apply Ascii.eqb_eq, Hd.
Qed.

Lemma string_app_same_length (a b s1 s2 : string) :
  String.length a = String.length b -> (a ++ s1 = b ++ s2)%string -> a = b /\ s1 = s2.
Proof.
  revert b; induction a as [|x a IH]; intros [|y b] Hl H; simpl in *;
    try discriminate; auto.
  injection H as -> H. injection Hl as Hl.
  destruct (IH b Hl H) as [-> ->]. auto.
Qed.

Lemma encode_char_app_inj (c d : ascii) (s1 s2 : string) :
  (encode_char c ++ s1 = encode_char d ++ s2)%string -> c = d /\ s1 = s2.
Proof.
  intros H.
  destruct (encode_char_shape c) as [h [t [Ec Lc]]].
  destruct (encode_char_shape d) as [h' [t' [Ed Ld]]].
  assert (Hh : h = h') by (rewrite Ec, Ed in H; injection H; auto).
  subst h'.
  assert (Hl : String.length (encode_char c) = String.length (encode_char d))
    by (rewrite Ec, Ed; simpl; congruence).
  destruct (string_app_same_length _ _ _ _ Hl H) as [E1 E2].
  split; [apply encode_char_inj, E1|exact E2].
Qed.

Lemma encodeURIComponent_inj (u v : string) :
  encodeURIComponent u = encodeURIComponent v -> u = v.
Proof.
  revert v; induction u as [|c u IH]; intros [|d v] H; simpl in H; auto.
  - destruct (encode_char_shape d) as [h [t [E _]]]. rewrite E in H. discriminate.
  - destruct (encode_char_shape c) as [h [t [E _]]]. rewrite E in H. discriminate.
  - apply encode_char_app_inj in H as [-> H]. f_equal. auto.
Qed.

Lemma string_app_cancel_l (p a b : string) : (p ++ a = p ++ b)%string -> a = b.
Proof. induction p; simpl; auto. intros H; injection H; auto. Qed.

(** X15: Two API calls with the same method and URL are the same call, except that
    generateRecommendations('stored') requests exactly the URL of
    getAllStoredRecommendations(). *)
Theorem endpoint_requests_distinct (env : option string) (c1 c2 : api_call) :
  fst (endpoint c1) = fst (endpoint c2) -> url env c1 = url env c2 ->
  c1 = c2 \/
  (c1 = GenerateRecommendations "stored" /\ c2 = GetAllStoredRecommendations) \/
  (c1 = GetAllStoredRecommendations /\ c2 = GenerateRecommendations "stored").
Proof.
  intros Hm Hu. unfold url in Hu. apply string_app_cancel_l in Hu.
  destruct c1, c2; simpl in Hm, Hu; try discriminate Hm; try (left; reflexivity);
    try (injection Hu; intros; congruence);
    try (injection Hu as Hu).
  all: first
    [ left; f_equal; apply encodeURIComponent_inj; exact Hu
    | exfalso; match type of Hu with
               | encodeURIComponent ?u = _ =>
                   apply (encode_char_no_slash u); rewrite Hu; simpl; tauto
               | _ = encodeURIComponent ?u =>
                   apply (encode_char_no_slash u); rewrite <- Hu; simpl; tauto
               end
    | change "stored" with (encodeURIComponent "stored") in Hu;
      apply encodeURIComponent_inj in Hu; subst; right; tauto ].
Qed.


(** X16: uploadBothFiles uploads products first and behaviour second, only for the files given; a
    successful result has a 'products' (resp. 'behavior') key exactly when that file was
    given, and a failed products upload stops before the behaviour upload and fails with
    the same message. *)
Theorem uploadBothFiles_results (productsFile behaviorFile : option Stager.file)
  (productsResp behaviorResp : api_result) :
  let '(sent, res) := uploadBothFiles productsFile behaviorFile productsResp behaviorResp in
  (forall o, res = ROk (JObj o) ->
     has_key "products" o = (if productsFile then true else false) /\
     has_key "behavior" o = (if behaviorFile then true else false) /\
     sent = (if productsFile then [UploadProducts] else []) ++
            (if behaviorFile then [UploadUserBehavior] else [])) /\
  (forall f m, productsFile = Some f -> productsResp = RErr m ->
     sent = [UploadProducts] /\ res = RErr m).
Proof.
  destruct productsFile as [f|], behaviorFile as [g|], productsResp as [v|m],
    behaviorResp as [w|m']; cbn; split; intros; try discriminate;
    repeat match goal with H : ROk _ = ROk _ |- _ => injection H as <- end;
    repeat match goal with H : RErr _ = RErr _ |- _ => injection H as <- end;
    auto.
Qed.

Import PageUpload.

(** X17: A page's handleUpload refreshes its list only when every given upload succeeded; a failed
    products upload shows one 'Upload failed' error toast with its message and sends nothing
    more; without a refresh the rows stay as they were, and loading always ends. *)
Theorem page_upload_stops_on_failure (fetchCall : api_call)
  (fetchApply : list jsval -> jsval -> list jsval) (rows : list jsval)
  (catalogFile behaviourFile : option Stager.file)
  (productsResp behaviorResp fetchResp : api_result) :
  fetchCall <> UploadProducts -> fetchCall <> UploadUserBehavior ->
  let r := PageUpload.handleUpload fetchCall fetchApply rows catalogFile behaviourFile
             productsResp behaviorResp fetchResp in
  (In fetchCall (u_sent r) <->
     (catalogFile = None \/ exists v, productsResp = ROk v) /\
     (behaviourFile = None \/ exists v, behaviorResp = ROk v)) /\
  (forall f m, catalogFile = Some f -> productsResp = RErr m ->
     u_sent r = [UploadProducts] /\ u_toasts r = [ToastError "Upload failed" m]) /\
  (In fetchCall (u_sent r) ->
     u_rows r = match fetchResp with ROk d => fetchApply rows d | RErr _ => rows end) /\
  (~ In fetchCall (u_sent r) -> u_rows r = rows) /\
  u_isLoading r = false.
Proof.
  intros N1 N2.
  destruct catalogFile as [f|], behaviourFile as [g|], productsResp as [v|m],
    behaviorResp as [w|m']; cbn;
    (split; [|split; [|split; [|split]]]); intros;
    try discriminate; try reflexivity;
    repeat match goal with H : RErr _ = RErr _ |- _ => injection H as <- end;
    try (split; reflexivity).
  all: try (exfalso; simpl in *; intuition congruence).
  all: firstorder (try congruence; eauto).
Qed.

Lemma X1_witness :
  (1 <= 7 <= 20)%Z /\ In 7%Z (Pagination.pages 7 20) /\
  length (Pagination.pages 7 20) = 5%nat.
Proof.
  assert (H : (1 <= 7 <= 20)%Z) by lia.
  pose proof (pagination_window_shape 7 20 H) as W. cbv zeta in W.
  split; [exact H|]. split; [exact (proj1 (proj2 W))|exact (proj1 W)].
Defined.

Lemma X2_witness :
  (1 <= 7 <= 20)%Z /\ In 1%Z (Pagination.buttons 7 20) /\ In 20%Z (Pagination.buttons 7 20).
Proof.
  assert (H : (1 <= 7 <= 20)%Z) by lia.
  split; [exact H|]. exact (proj2 (pagination_buttons_increasing 7 20) H).
Defined.

Lemma X3_witness :
  (1 <= 7 <= 20)%Z /\ Pagination.clickTarget 7 20 (Pagination.PageButton 20) = Some 20%Z /\
  (1 <= 20 <= 20)%Z.
Proof.
  assert (H1 : (1 <= 7 <= 20)%Z) by lia.
  assert (H2 : Pagination.clickTarget 7 20 (Pagination.PageButton 20) = Some 20%Z)
    by (vm_compute; reflexivity).
  split; [exact H1|]. split; [exact H2|].
  exact (pagination_clicks_in_range 7 20 _ _ H1 H2).
Defined.

Lemma X4_witness :
  (RecTable.totalPages (length (seq 0 12)) < 3)%Z /\ RecTable.paginatedData (seq 0 12) 3 = [].
Proof.
  assert (H : (RecTable.totalPages (length (seq 0 12)) < 3)%Z) by (vm_compute; reflexivity).
  split; [exact H|]. exact (proj2 (proj2 (table_pages_partition (seq 0 12))) 3%Z H).
Defined.

Lemma X5_witness :
  let recs := map (fun n => sample_recommendation (string_of_Z (Z.of_nat n)) (Z.of_nat n))
                (seq 0 25) in
  let es := [RecTable.TPage (Pagination.PageButton 3); RecTable.TTopN "5"] in
  RecTable.rows recs (RecTable.trun recs es) <> [] /\
  RecTable.paginatedData (RecTable.rows recs (RecTable.trun recs es))
    (RecTable.currentPage (RecTable.trun recs es)) <> [].
Proof.
  intros recs es.
  assert (H : RecTable.rows recs (RecTable.trun recs es) <> [])
    by (vm_compute; discriminate).
  split; [exact H|]. exact (proj2 (table_page_never_blank recs es) H).
Defined.

Lemma X6_witness :
  let recs := [sample_recommendation "A" 3; sample_recommendation "B" 9;
               sample_recommendation "C" 5] in
  "2" <> "all" /\ js_parseInt10 "2" = Some 2%Z /\ (0 <= 2)%Z /\
  length (RecTable.filteredData recs EmptyString "2") = 2%nat.
Proof.
  intros recs.
  assert (H1 : "2" <> "all") by discriminate.
  assert (H2 : js_parseInt10 "2" = Some 2%Z) by reflexivity.
  assert (H3 : (0 <= 2)%Z) by lia.
  split; [exact H1|]. split; [exact H2|]. split; [exact H3|].
  exact (proj1 (table_topN_keeps_best recs EmptyString "2" 2 H1 H2 H3)).
Defined.

Lemma X8_witness :
  RecTable.field {| RecTable.field := None; RecTable.dir := RecTable.Desc |}
    <> Some RecTable.FPrice /\
  RecTable.dir (RecTable.handleSort RecTable.FPrice
    {| RecTable.field := None; RecTable.dir := RecTable.Desc |}) = RecTable.Asc.
Proof.
  assert (H : RecTable.field {| RecTable.field := None; RecTable.dir := RecTable.Desc |}
              <> Some RecTable.FPrice) by discriminate.
  split; [exact H|].
  exact (proj2 (proj2 (table_sort_toggle RecTable.FPrice
    {| RecTable.field := None; RecTable.dir := RecTable.Desc |})) H).
Defined.



Lemma X15_witness :
  fst (Endpoints.endpoint (Endpoints.GenerateRecommendations "stored"))
    = fst (Endpoints.endpoint Endpoints.GetAllStoredRecommendations) /\
  Endpoints.url None (Endpoints.GenerateRecommendations "stored")
    = Endpoints.url None Endpoints.GetAllStoredRecommendations /\
  (Endpoints.GenerateRecommendations "stored" = Endpoints.GetAllStoredRecommendations \/
   (Endpoints.GenerateRecommendations "stored" = Endpoints.GenerateRecommendations "stored" /\
    Endpoints.GetAllStoredRecommendations = Endpoints.GetAllStoredRecommendations) \/
   (Endpoints.GenerateRecommendations "stored" = Endpoints.GetAllStoredRecommendations /\
    Endpoints.GetAllStoredRecommendations = Endpoints.GenerateRecommendations "stored")).
Proof.
  assert (H1 : fst (Endpoints.endpoint (Endpoints.GenerateRecommendations "stored"))
               = fst (Endpoints.endpoint Endpoints.GetAllStoredRecommendations)) by reflexivity.
  assert (H2 : Endpoints.url None (Endpoints.GenerateRecommendations "stored")
               = Endpoints.url None Endpoints.GetAllStoredRecommendations)
    by (vm_compute; reflexivity).
  split; [exact H1|]. split; [exact H2|].
  exact (endpoint_requests_distinct None _ _ H1 H2).
Defined.

Lemma X16_witness :
  fst (Endpoints.uploadBothFiles (Some sample_csv) (Some sample_csv) (RErr "boom") (ROk JNull))
    = [Endpoints.UploadProducts] /\
  snd (Endpoints.uploadBothFiles (Some sample_csv) (Some sample_csv) (RErr "boom") (ROk JNull))
    = RErr "boom".
Proof.
  pose proof (uploadBothFiles_results (Some sample_csv) (Some sample_csv) (RErr "boom")
                (ROk JNull)) as H.
  destruct (Endpoints.uploadBothFiles (Some sample_csv) (Some sample_csv) (RErr "boom")
              (ROk JNull)) as [sent res] eqn:E.
  exact (proj2 H sample_csv "boom" eq_refl eq_refl).
Defined.

Lemma X17_witness :
  Endpoints.GetBehaviors <> Endpoints.UploadProducts /\
  Endpoints.GetBehaviors <> Endpoints.UploadUserBehavior /\
  PageUpload.u_sent (PageUpload.handleUpload Endpoints.GetBehaviors Normalize.fetchBehaviors []
    (Some sample_csv) (Some sample_csv) (RErr "boom") (ROk JNull) (ROk (JArr []))) =
  [Endpoints.UploadProducts].
Proof.
  assert (H1 : Endpoints.GetBehaviors <> Endpoints.UploadProducts) by discriminate.
  assert (H2 : Endpoints.GetBehaviors <> Endpoints.UploadUserBehavior) by discriminate.
  split; [exact H1|]. split; [exact H2|].
  exact (proj1 (proj1 (proj2 (page_upload_stops_on_failure Endpoints.GetBehaviors
    Normalize.fetchBehaviors [] (Some sample_csv) (Some sample_csv) (RErr "boom")
    (ROk JNull) (ROk (JArr [])) H1 H2)) sample_csv "boom" eq_refl eq_refl)).
Defined.

Lemma X9_witness :
  RecTable.renderFeatures "a; ;b" = ["a"; EmptyString; "b"] /\
  Forall (fun c => is_space c = true) (list_ascii_of_string " ").
Proof.
  split; [reflexivity|].
  destruct (features_badges "a; ;b") as (_ & _ & H).
  change (RecTable.featureList "a; ;b") with ["a"; " "; "b"] in H.
  change (RecTable.renderFeatures "a; ;b") with ["a"; EmptyString; "b"] in H.
  inversion_clear H as [|? ? ? ? _ H'].
  inversion_clear H' as [|? ? ? ? Hm _].
  exact (proj1 (proj2 (proj2 (proj2 Hm))) eq_refl).
Defined.
